(** * GoogLeNet classification sample: a model of [Main.cpp]

    [Main.cpp] loads a Caffe network through OpenCV's dnn module, pushes one
    image through it eleven times, takes the arg-max of the last output and
    prints the matching line of [synset_words.txt].

    The development has four layers:
    - the pieces of the C++ runtime the program leans on ([std::string::find],
      [substr], [std::getline] on an [ifstream], [std::vector::at]);
    - the OpenCV collaborators ([Mat], [minMaxLoc], and a [World] record for
      the calls whose results come from outside: command line, files,
      network, image codec);
    - the program itself, [readClassNames], [doDnn] and [main], written in a
      small trace monad whose results distinguish a normal return, a call of
      [exit], an escaping exception, undefined behaviour and a loop that does
      not end;
    - the properties. *)

From Stdlib Require Import ZArith List String Ascii Bool Lia.
From Stdlib Require Import Floats.SpecFloat.
Import ListNotations.

Local Open Scope string_scope.
Local Open Scope Z_scope.

(* ===================================================================== *)
(** ** IEEE binary64 ([double]) *)
(* ===================================================================== *)

Definition double := spec_float.

Definition dprec : Z := 53.
Definition demax : Z := 1024.

(** An [int] literal or value converted to [double]. *)
Definition double_of_Z (z : Z) : double := binary_normalize dprec demax z 0 false.

(** [a * b] on doubles. *)
Definition dmul (a b : double) : double := SFmul dprec demax a b.

(** [a < b] on doubles; false as soon as one side is a NaN. *)
Definition dlt (a b : double) : bool := SFltb a b.

Definition is_nan (a : double) : bool :=
  match a with S754_nan => true | _ => false end.

(* ===================================================================== *)
(** ** Results of a C++ computation *)
(* ===================================================================== *)

Inductive exn : Type :=
| cv_Exception (what : string)
| std_out_of_range.

Inductive result (A : Type) : Type :=
| Ret (a : A)            (* the computation returns *)
| Exit (status : Z)      (* exit(status) was called *)
| Throw (e : exn)        (* an exception is propagating *)
| Undefined              (* behaviour the language leaves undefined *)
| Diverge.               (* a loop that does not terminate *)

Arguments Ret {A} a.
Arguments Exit {A} status.
Arguments Throw {A} e.
Arguments Undefined {A}.
Arguments Diverge {A}.

(* ===================================================================== *)
(** ** std::string, std::vector *)
(* ===================================================================== *)

Definition size_t_modulus : Z := 2 ^ 64.

(** [std::string::npos], the largest [size_t]. *)
Definition npos : Z := size_t_modulus - 1.

(** Unsigned addition on [size_t]. *)
Definition size_t_add (a b : Z) : Z := (a + b) mod size_t_modulus.

(** Conversion of an [int] to [size_t]. *)
Definition size_t_of_int (i : Z) : Z := i mod size_t_modulus.

(** The largest [int]. *)
Definition INT_MAX : Z := 2 ^ 31 - 1.

Definition size (s : string) : Z := Z.of_nat (String.length s).

Fixpoint find_from (s : string) (c : ascii) (i : Z) : Z :=
  match s with
  | EmptyString => npos
  | String d s' => if Ascii.eqb d c then i else find_from s' c (i + 1)
  end.

(** [s.find(c)]: position of the first [c], [npos] when there is none. *)
Definition find (s : string) (c : ascii) : Z := find_from s c 0.

Fixpoint skip (n : nat) (s : string) : string :=
  match n, s with
  | O, _ => s
  | S _, EmptyString => EmptyString
  | S n', String _ s' => skip n' s'
  end.

(** [s.substr(pos)]: the characters from [pos] on; throws [std::out_of_range]
    when [pos > s.size()]. *)
Definition substr (s : string) (pos : Z) : result string :=
  if size s <? pos then Throw std_out_of_range
  else Ret (skip (Z.to_nat pos) s).

Definition vector (A : Type) := list A.

Definition push_back {A} (v : vector A) (x : A) : vector A := (v ++ [x])%list.

(** [v.at(i)]: bounds-checked access, throws [std::out_of_range]. *)
Definition vector_at {A} (v : vector A) (i : Z) : result A :=
  if (0 <=? i) && (i <? Z.of_nat (List.length v)) then
    match nth_error v (Z.to_nat i) with
    | Some x => Ret x
    | None => Throw std_out_of_range
    end
  else Throw std_out_of_range.

(** [v[i]]: unchecked access, undefined outside the vector. *)
Definition vector_subscript {A} (v : vector A) (i : Z) : result A :=
  match (if 0 <=? i then nth_error v (Z.to_nat i) else None) with
  | Some x => Ret x
  | None => Undefined
  end.

(* ===================================================================== *)
(** ** std::ifstream and std::getline *)
(* ===================================================================== *)

(** An input stream: the characters still to come, what lies behind them
    (the end of the file, or a read error, as on a directory or a failing
    device), and the state bits. *)
Record ifstream : Type := mk_ifstream {
  pending : string;      (* the characters not yet extracted *)
  read_error : bool;     (* reading past [pending] fails instead of meeting
                            the end of the file *)
  eofbit : bool;
  failbit : bool;
  badbit : bool
}.

Definition newline : ascii := "010"%char.
Definition space : ascii := " "%char.

(** Extraction up to the delimiter: the line, and what follows the delimiter
    ([None] when the characters ran out first). *)
Fixpoint read_line (s : string) : string * option string :=
  match s with
  | EmptyString => (EmptyString, None)
  | String c s' =>
      if Ascii.eqb c newline then (EmptyString, Some s')
      else let (l, r) := read_line s' in (String c l, r)
  end.

(** [std::getline(fp, name)] on a [name] that is empty before the call.
    On a stream that is not good nothing is extracted and [failbit] is set.
    Otherwise characters are extracted up to a newline; when they run out,
    [eofbit] is set at the end of the file and [badbit] on a read error
    ([eofbit] stays clear then), with [failbit] when nothing was
    extracted. *)
Definition getline (fp : ifstream) : ifstream * string :=
  if eofbit fp || failbit fp || badbit fp then
    (mk_ifstream (pending fp) (read_error fp) (eofbit fp) true (badbit fp),
     EmptyString)
  else
    match read_line (pending fp) with
    | (l, Some rest) => (mk_ifstream rest (read_error fp) false false false, l)
    | (l, None) =>
        if read_error fp
        then (mk_ifstream EmptyString true false (size l =? 0) true, l)
        else (mk_ifstream EmptyString false true (size l =? 0) false, l)
    end.

(** A stream that will never show [eofbit]: it is clear, and either a read
    error lies ahead or the stream has failed already. *)
Definition stuck (fp : ifstream) : Prop :=
  eofbit fp = false /\
  (read_error fp = true \/ failbit fp = true \/ badbit fp = true).

(* ===================================================================== *)
(** ** OpenCV value types *)
(* ===================================================================== *)

Record Size : Type := mk_Size { width : Z; height : Z }.

Record Point : Type := mk_Point { x : Z; y : Z }.

(** [cv::Scalar]: four doubles. *)
Record Scalar : Type := mk_Scalar { v0 : double; v1 : double; v2 : double; v3 : double }.

(** [cv::Scalar(a, b, c)] from three [int]s; the fourth component is 0. *)
Definition Scalar3 (a b c : Z) : Scalar :=
  mk_Scalar (double_of_Z a) (double_of_Z b) (double_of_Z c) (double_of_Z 0).

(** A single-channel floating-point [cv::Mat]: its dimensions and its
    elements in row-major order (read as doubles, as [minMaxLoc] reports
    them). *)
Record Mat : Type := mk_Mat { dims : list Z; elems : list double }.

(** [m.reshape(1, 1)]: same elements, one row. *)
Definition reshape_1_1 (m : Mat) : Mat :=
  mk_Mat [1; Z.of_nat (List.length (elems m))] (elems m).

Definition cols (m : Mat) : Z := nth 1 (dims m) 0.

(** One left-to-right pass keeping the largest value seen and where it was
    seen; a later element replaces the current one only when strictly
    greater. *)
Fixpoint max_scan (best : double) (besti : Z) (i : Z) (l : list double) : double * Z :=
  match l with
  | [] => (best, besti)
  | v :: l' =>
      if dlt best v then max_scan v i (i + 1) l'
      else max_scan best besti (i + 1) l'
  end.

(** [cv::minMaxLoc(m, NULL, &maxVal, NULL, &maxLoc)] on a matrix of at most
    two dimensions.  The routine is OpenCV's; what it computes is written
    out here: the maximum and the location of its first occurrence, column
    in [x] and row in [y]; for a matrix without elements, 0 and (-1, -1). *)
Definition minMaxLoc (m : Mat) : double * Point :=
  match elems m with
  | [] => (double_of_Z 0, mk_Point (-1) (-1))
  | v :: l =>
      let (best, i) := max_scan v 0 1 l in
      (best, mk_Point (i mod cols m) (i / cols m))
  end.

(* ===================================================================== *)
(* ===================================================================== *)
(** ** The outside world *)
(* ===================================================================== *)

Inductive Target : Type := DNN_TARGET_CPU | DNN_TARGET_OPENCL.

(** Everything the program obtains from its collaborators.  [Net] is the
    state of a [cv::dnn::Net], [Img] a decoded image.

    A library call made after the try block of [doDnn] can throw a
    [cv::Exception] that nothing catches.  Such a call is given by two
    fields: [f_throws], which says whether the call throws ([Some what]) or
    returns ([None]), and [f], the value it returns when it does. *)
Record World (Net Img : Type) : Type := mk_World {
  (* cv::CommandLineParser(argc, argv, keys).get<T>(name) *)
  parser_get_bool : string -> list string -> string -> bool;
  parser_get_String : string -> list string -> string -> string;
  (* the file system seen by std::ifstream.  [file_contents f = Some s]:
     the file opens and reads, up to its end, as [s].  Otherwise
     [read_error_after f = Some s]: the file opens, delivers [s], and then
     reading fails (a directory delivers nothing and fails at once);
     [read_error_after f = None]: the file cannot be opened *)
  file_contents : string -> option string;
  read_error_after : string -> option string;
  (* cv::dnn *)
  Net_default : Net;                                   (* cv::dnn::Net net; *)
  Net_empty : Net -> bool;                             (* net.empty() *)
  readNetFromCaffe : string -> string -> Net + string; (* [inr what]: cv::Exception *)
  setPreferableTarget : Net -> Target -> Net;
  setPreferableTarget_throws : Net -> Target -> option string;
  setInput : Net -> Mat -> string -> Net;
  setInput_throws : Net -> Mat -> string -> option string;
  forward : Net -> string -> Net * Mat;
  forward_throws : Net -> string -> option string;
  blobFromImage : Img -> double -> Size -> Scalar -> bool -> Mat;
  blobFromImage_throws : Img -> double -> Size -> Scalar -> bool -> option string;
  (* cv::imread, cv::Mat::empty, cv::Mat::channels on an image *)
  imread : string -> Img;
  imread_throws : string -> option string;
  Img_empty : Img -> bool;
  Img_channels : Img -> Z
}.

Arguments parser_get_bool {Net Img} w keys argv name.
Arguments parser_get_String {Net Img} w keys argv name.
Arguments file_contents {Net Img} w filename.
Arguments read_error_after {Net Img} w filename.
Arguments Net_default {Net Img} w.
Arguments Net_empty {Net Img} w net.
Arguments readNetFromCaffe {Net Img} w prototxt caffeModel.
Arguments setPreferableTarget {Net Img} w net target.
Arguments setPreferableTarget_throws {Net Img} w net target.
Arguments setInput {Net Img} w net blob name.
Arguments setInput_throws {Net Img} w net blob name.
Arguments forward {Net Img} w net outputName.
Arguments forward_throws {Net Img} w net outputName.
Arguments blobFromImage {Net Img} w image scalefactor size mean swapRB.
Arguments blobFromImage_throws {Net Img} w image scalefactor size mean swapRB.
Arguments imread {Net Img} w filename.
Arguments imread_throws {Net Img} w filename.
Arguments Img_empty {Net Img} w img.
Arguments Img_channels {Net Img} w img.

(** ** Traces *)
(* ===================================================================== *)

(** One operand of a [<<] chain. *)
Inductive piece : Type :=
| PStr (s : string)
| PInt (n : Z)
| PDouble (d : double)
| PEndl.

Inductive event : Type :=
| EvPrintMessage                                   (* parser.printMessage() *)
| EvCout (p : piece)
| EvCerr (p : piece)
| EvOpen (filename : string) (opened : bool)       (* std::ifstream fp(filename) *)
| EvClose                                          (* fp.close() *)
| EvReadNet (prototxt caffeModel : string)
| EvSetPreferableTarget (t : Target)
| EvImread (filename : string)
| EvBlobFromImage (scalefactor : double) (sz : Size) (mean : Scalar)
                  (swapRB : bool) (blob : Mat)
| EvSetInput (blob : Mat) (name : string)
| EvForward (outputName : string) (out : Mat).

Definition trace := list event.

(** A computation: what it did, and how it ended. *)
Definition M (A : Type) : Type := trace * result A.

Definition ret {A} (a : A) : M A := ([], Ret a).

Definition bind {A B} (m : M A) (f : A -> M B) : M B :=
  match m with
  | (t, Ret a) => let (t', r) := f a in ((t ++ t')%list, r)
  | (t, Exit s) => (t, Exit s)
  | (t, Throw e) => (t, Throw e)
  | (t, Undefined) => (t, Undefined)
  | (t, Diverge) => (t, Diverge)
  end.

Notation "x <- m ;; k" := (bind m (fun x => k))
  (at level 61, m at next level, right associativity).
Notation "m ;; k" := (bind m (fun _ => k))
  (at level 61, right associativity).

Definition emit (e : event) : M unit := ([e], Ret tt).
Definition cout (p : piece) : M unit := emit (EvCout p).
Definition cerr (p : piece) : M unit := emit (EvCerr p).
Definition exit_ {A} (status : Z) : M A := ([], Exit status).
Definition lift {A} (r : result A) : M A := ([], r).

(** [try { body } catch (cv::Exception& e) { handler }]. *)
Definition try_catch_cv {A} (body : M A) (handler : string -> M A) : M A :=
  match body with
  | (t, Throw (cv_Exception what)) =>
      let (t', r) := handler what in ((t ++ t')%list, r)
  | other => other
  end.

Definition events_of {A} (m : M A) : trace := fst m.
Definition result_of {A} (m : M A) : result A := snd m.


(** A library call that returns [a] unless it throws. *)
Definition call {A} (throws : option string) (a : A) : M A :=
  match throws with
  | Some what => lift (Throw (cv_Exception what))
  | None => ret a
  end.

(* ===================================================================== *)
(** ** The program *)
(* ===================================================================== *)

Section Program.

Context {Net Img : Type}.
Variable w : World Net Img.

(** The [while (!fp.eof())] loop of [readClassNames]; [fuel] bounds the
    number of iterations, and a loop that outlives it counts as one that
    does not end. *)
Fixpoint readLoop (fuel : nat) (fp : ifstream) (classNames : vector string)
  : result (vector string) :=
  match fuel with
  | O => Diverge
  | S fuel' =>
      if eofbit fp then Ret classNames
      else
        let (fp', name) := getline fp in
        if 0 <? size name then
          match substr name (size_t_add (find name space) 1) with
          | Ret label => readLoop fuel' fp' (push_back classNames label)
          | Exit s => Exit s
          | Throw e => Throw e
          | Undefined => Undefined
          | Diverge => Diverge
          end
        else readLoop fuel' fp' classNames
  end.

(** [std::ifstream fp(filename)]: the stream, when the file opens. *)
Definition open_ifstream (filename : string) : option ifstream :=
  match file_contents w filename with
  | Some content => Some (mk_ifstream content false false false false)
  | None =>
      match read_error_after w filename with
      | Some data => Some (mk_ifstream data true false false false)
      | None => None
      end
  end.

(** read classes labels from file.  On a stream that reads to its end each
    iteration of the loop but the last consumes a newline, so the number of
    characters plus two is fuel enough ([readLoop_returns] below); on a
    stream that meets a read error no fuel is ([readLoop_stuck]). *)
Definition readClassNames (filename : string) : M (vector string) :=
  match open_ifstream filename with
  | None =>
      emit (EvOpen filename false) ;;
      cerr (PStr "File with classes labels not found: ") ;;
      cerr (PStr filename) ;;
      cerr PEndl ;;
      exit_ (-1)
  | Some fp =>
      emit (EvOpen filename true) ;;
      classNames <- lift (readLoop (String.length (pending fp) + 2) fp []) ;;
      emit EvClose ;;
      ret classNames
  end.

Definition params : string :=
  "{ help           | false | Sample app for loading googlenet model }" ++
  "{ proto          | bvlc_googlenet.prototxt | model configuration }" ++
  "{ model          | bvlc_googlenet.caffemodel | model weights }" ++
  "{ image          | space_shuttle.jpg | path to image file }" ++
  "{ opencl         | false | enable OpenCL }".

(** [net = cv::dnn::readNetFromCaffe(modelTxt, modelBin)]: the right-hand
    side either yields the network assigned to [net] or throws. *)
Definition call_readNetFromCaffe (modelTxt modelBin : string) : M Net :=
  emit (EvReadNet modelTxt modelBin) ;;
  match readNetFromCaffe w modelTxt modelBin with
  | inl net => ret net
  | inr what => lift (Throw (cv_Exception what))
  end.

(** Lines 88-105: the network is read inside a try block; in the handler
    [net] still is the default-constructed object. *)
Definition loadNet (modelTxt modelBin : string) : M Net :=
  let net := Net_default w in
  try_catch_cv
    (call_readNetFromCaffe modelTxt modelBin)
    (fun what =>
       cerr (PStr "Exception: ") ;; cerr (PStr what) ;; cerr PEndl ;;
       if Net_empty w net then
         cerr (PStr "Can't load network by using the following files: ") ;; cerr PEndl ;;
         cerr (PStr "prototxt:   ") ;; cerr (PStr modelTxt) ;; cerr PEndl ;;
         cerr (PStr "caffemodel: ") ;; cerr (PStr modelBin) ;; cerr PEndl ;;
         cerr (PStr "bvlc_googlenet.caffemodel can be downloaded here:") ;; cerr PEndl ;;
         cerr (PStr "http://dl.caffe.berkeleyvision.org/bvlc_googlenet.caffemodel") ;; cerr PEndl ;;
         exit_ (-1)
       else ret net).

(** One [net.setInput(inputBlob, "data"); prob = net.forward("prob");].
    Either call can throw. *)
Definition cycle (net : Net) (inputBlob : Mat) : M (Net * Mat) :=
  emit (EvSetInput inputBlob "data") ;;
  net1 <- call (setInput_throws w net inputBlob "data")
               (setInput w net inputBlob "data") ;;
  out <- call (forward_throws w net1 "prob") (forward w net1 "prob") ;;
  emit (EvForward "prob" (snd out)) ;;
  ret out.

(** [for (int i = 0; i < n; i++) { cycle }], [prob] overwritten each time. *)
Fixpoint repeat_cycle (n : nat) (net : Net) (inputBlob : Mat) (prob : Mat)
  : M (Net * Mat) :=
  match n with
  | O => ret (net, prob)
  | S n' =>
      np <- cycle net inputBlob ;;
      repeat_cycle n' (fst np) inputBlob (snd np)
  end.

(** Lines 134-140. *)
Definition runNet (net : Net) (inputBlob : Mat) : M Mat :=
  np <- cycle net inputBlob ;;
  np' <- repeat_cycle 10 (fst np) inputBlob (snd np) ;;
  ret (snd np').

(** The inference step of a program that runs the cycle exactly once. *)
Definition runNet_once (net : Net) (inputBlob : Mat) : M Mat :=
  np <- cycle net inputBlob ;;
  ret (snd np).

(** Lines 143-153.  The operands of the first [<<] chain are taken left to
    right, as C++17 orders them, so the text before the label is written
    before [at] is evaluated; no statement below depends on what had been
    written when [at] throws. *)
Definition report (prob : Mat) : M unit :=
  let probMat := reshape_1_1 prob in
  let classProb := fst (minMaxLoc probMat) in
  let classNumber := snd (minMaxLoc probMat) in
  let classId := x classNumber in
  classNames <- readClassNames "synset_words.txt" ;;
  cout (PStr "Best class: #") ;; cout (PInt classId) ;; cout (PStr " '") ;;
  label <- lift (vector_at classNames (size_t_of_int classId)) ;;
  cout (PStr label) ;; cout (PStr "'") ;; cout PEndl ;;
  cout (PStr "Probability: ") ;; cout (PDouble (dmul classProb (double_of_Z 100))) ;;
  cout (PStr "%") ;; cout PEndl.

(** Lines 107-153: what [doDnn] does with the network once the try block
    is behind it; [run] is the inference step.  No call made here sits in a
    try block. *)
Definition classify (run : Net -> Mat -> M Mat) (imageFile : string)
  (opencl : bool) (net : Net) : M unit :=
  net <- (if opencl
          then emit (EvSetPreferableTarget DNN_TARGET_OPENCL) ;;
               call (setPreferableTarget_throws w net DNN_TARGET_OPENCL)
                    (setPreferableTarget w net DNN_TARGET_OPENCL)
          else ret net) ;;
  emit (EvImread imageFile) ;;
  img <- call (imread_throws w imageFile) (imread w imageFile) ;;
  (if Img_empty w img then
     cerr (PStr "Can't read image from the file: ") ;; cerr (PStr imageFile) ;; cerr PEndl ;;
     exit_ (-1)
   else ret tt) ;;
  inputBlob <-
    call (blobFromImage_throws w img (double_of_Z 1) (mk_Size 224 224)
                               (Scalar3 104 117 123) false)
         (blobFromImage w img (double_of_Z 1) (mk_Size 224 224)
                        (Scalar3 104 117 123) false) ;;
  emit (EvBlobFromImage (double_of_Z 1) (mk_Size 224 224) (Scalar3 104 117 123) false
                        inputBlob) ;;
  prob <- run net inputBlob ;;
  report prob.

(** [doDnn], with the inference step as a parameter. *)
Definition doDnn_with (run : Net -> Mat -> M Mat) (argv : list string) : M unit :=
  (if parser_get_bool w params argv "help" then emit EvPrintMessage else ret tt) ;;
  let modelTxt := parser_get_String w params argv "proto" in
  let modelBin := parser_get_String w params argv "model" in
  let imageFile := parser_get_String w params argv "image" in
  let opencl := parser_get_bool w params argv "opencl" in
  net <- loadNet modelTxt modelBin ;;
  classify run imageFile opencl net.

Definition doDnn (argv : list string) : M unit := doDnn_with runNet argv.

(** The same program with a single set-input/forward cycle. *)
Definition doDnn_once (argv : list string) : M unit := doDnn_with runNet_once argv.

(** How the process ends. *)
Inductive termination : Type :=
| Exited (status : Z)       (* exit status handed to the environment *)
| Terminated (e : exn)      (* std::terminate on an uncaught exception *)
| UndefinedRun
| Hangs.

Definition main (argv : list string) : trace * termination :=
  match doDnn argv with
  | (t, Ret _) => (t, Exited 0)
  | (t, Exit s) => (t, Exited s)
  | (t, Throw e) => (t, Terminated e)
  | (t, Undefined) => (t, UndefinedRun)
  | (t, Diverge) => (t, Hangs)
  end.

End Program.

(* ===================================================================== *)
(** ** Vocabulary of the statements *)
(* ===================================================================== *)

(** Does [c] occur in [s]? *)
Fixpoint occurs (c : ascii) (s : string) : bool :=
  match s with
  | EmptyString => false
  | String d s' => Ascii.eqb d c || occurs c s'
  end.

(** The text that follows the first [c] of [s]. *)
Fixpoint after_first (c : ascii) (s : string) : string :=
  match s with
  | EmptyString => EmptyString
  | String d s' => if Ascii.eqb d c then s' else after_first c s'
  end.

(** The lines of a text: the pieces between its newline characters. *)
Fixpoint lines (s : string) : list string :=
  match s with
  | EmptyString => [EmptyString]
  | String c s' =>
      if Ascii.eqb c newline then EmptyString :: lines s'
      else match lines s' with
           | l :: ls => String c l :: ls
           | [] => [String c EmptyString]
           end
  end.

(** The text whose lines are [ls]. *)
Fixpoint unlines (ls : list string) : string :=
  match ls with
  | [] => EmptyString
  | [l] => l
  | l :: ls' => l ++ String newline (unlines ls')
  end.

Definition nonempty (s : string) : bool := negb (String.eqb s EmptyString).

(** What a non-empty line contributes to the label list. *)
Definition label_of_line (l : string) : string :=
  if occurs space l then after_first space l else l.

(** The label list of a file with the given lines. *)
Definition labels_of_lines (ls : list string) : list string :=
  map label_of_line (filter nonempty ls).

(** A line of the form [<id><space><label>]. *)
Definition well_formed_line (id label : string) : string :=
  id ++ String space label.

Definition couts (t : trace) : list piece :=
  flat_map (fun e => match e with EvCout p => [p] | _ => [] end) t.

Definition cerrs (t : trace) : list piece :=
  flat_map (fun e => match e with EvCerr p => [p] | _ => [] end) t.

Definition is_model_load (e : event) : bool :=
  match e with EvReadNet _ _ => true | _ => false end.

Definition is_open (e : event) : bool :=
  match e with EvOpen _ _ => true | _ => false end.

(** [m] sits at index [k] of [v] and no element of [v] is greater. *)
Definition max_at (v : list double) (k : Z) (m : double) : Prop :=
  0 <= k < Z.of_nat (List.length v) /\
  nth_error v (Z.to_nat k) = Some m /\
  (forall e, In e v -> dlt m e = false).

(** Every element before index [k] is smaller than [m]. *)
Definition first_at (v : list double) (k : Z) (m : double) : Prop :=
  forall (j : nat) (e : double),
    (j < Z.to_nat k)%nat -> nth_error v j = Some e -> dlt e m = true.

Definition no_nan (v : list double) : Prop :=
  forall e, In e v -> is_nan e = false.

Definition forward_outputs (t : trace) : list Mat :=
  flat_map (fun e => match e with EvForward _ out => [out] | _ => [] end) t.

Definition input_blobs (t : trace) : list Mat :=
  flat_map (fun e => match e with EvSetInput blob _ => [blob] | _ => [] end) t.

(** The output [doDnn] is left with when its loop is over: that of the
    eleventh forward pass, if the run got that far. *)
Definition final_output (t : trace) : option Mat :=
  nth_error (forward_outputs t) 10.

(** The class index and the probability read off an output tensor. *)
Definition classId_of (prob : Mat) : Z := x (snd (minMaxLoc (reshape_1_1 prob))).
Definition classProb_of (prob : Mat) : double := fst (minMaxLoc (reshape_1_1 prob)).

Section Vocabulary.

Context {Net Img : Type}.
Variable w : World Net Img.

Definition help_option (argv : list string) : bool :=
  parser_get_bool w params argv "help".
Definition proto_option (argv : list string) : string :=
  parser_get_String w params argv "proto".
Definition model_option (argv : list string) : string :=
  parser_get_String w params argv "model".
Definition image_option (argv : list string) : string :=
  parser_get_String w params argv "image".
Definition opencl_option (argv : list string) : bool :=
  parser_get_bool w params argv "opencl".

(** The library threw while reading the model and left the handle empty. *)
Definition load_fails (argv : list string) : bool :=
  match readNetFromCaffe w (proto_option argv) (model_option argv) with
  | inl _ => false
  | inr _ => Net_empty w (Net_default w)
  end.

(** The network [doDnn] holds after the try block, when it goes on. *)
Definition loaded_net (argv : list string) : Net :=
  match readNetFromCaffe w (proto_option argv) (model_option argv) with
  | inl net => net
  | inr _ => Net_default w
  end.

(** The exception of the call of [setPreferableTarget], if it is made and
    throws. *)
Definition target_throws (argv : list string) : option string :=
  if opencl_option argv
  then setPreferableTarget_throws w (loaded_net argv) DNN_TARGET_OPENCL
  else None.

(** The run gets to test the decoded image (line 117) and finds it
    empty. *)
Definition image_unreadable (argv : list string) : bool :=
  match target_throws argv, imread_throws w (image_option argv) with
  | None, None => Img_empty w (imread w (image_option argv))
  | _, _ => false
  end.

(** The label file cannot be opened. *)
Definition labels_missing : bool :=
  match open_ifstream w "synset_words.txt" with
  | None => true
  | Some _ => false
  end.

(** The label file opens, and reading it meets an error before its end. *)
Definition labels_unreadable : bool :=
  match open_ifstream w "synset_words.txt" with
  | None => false
  | Some fp => read_error fp
  end.

(** The network as doDnn holds it when inference starts. *)
Definition net_in_use (argv : list string) : Net :=
  let net := match readNetFromCaffe w (proto_option argv) (model_option argv) with
             | inl net => net
             | inr _ => Net_default w
             end in
  if opencl_option argv then setPreferableTarget w net DNN_TARGET_OPENCL else net.

(** Output and next state of one set-input/forward cycle. *)
Definition output (net : Net) (blob : Mat) : Mat :=
  snd (forward w (setInput w net blob "data") "prob").
Definition next_net (net : Net) (blob : Mat) : Net :=
  fst (forward w (setInput w net blob "data") "prob").

Fixpoint net_after (n : nat) (net : Net) (blob : Mat) : Net :=
  match n with
  | O => net
  | S n' => net_after n' (next_net net blob) blob
  end.

Fixpoint cycles_trace (n : nat) (net : Net) (blob : Mat) : trace :=
  match n with
  | O => []
  | S n' => EvSetInput blob "data" :: EvForward "prob" (output net blob)
            :: cycles_trace n' (next_net net blob) blob
  end.

Definition help_events (argv : list string) : trace :=
  if help_option argv then [EvPrintMessage] else [].

Definition target_events (argv : list string) : trace :=
  if opencl_option argv then [EvSetPreferableTarget DNN_TARGET_OPENCL] else [].

(** What the model-loading block (lines 88-105) does. *)
Definition load_events (argv : list string) : trace :=
  events_of (loadNet w (proto_option argv) (model_option argv)).

(** The tensor doDnn builds from the decoded image. *)
Definition input_blob (argv : list string) : Mat :=
  blobFromImage w (imread w (image_option argv))
    (double_of_Z 1) (mk_Size 224 224) (Scalar3 104 117 123) false.

(** Everything doDnn does before the first forward pass, when the model
    loads and the image is read. *)
Definition setup_events (argv : list string) : trace :=
  (help_events argv ++ load_events argv ++ target_events argv ++
   [EvImread (image_option argv);
    EvBlobFromImage (double_of_Z 1) (mk_Size 224 224) (Scalar3 104 117 123) false
                    (input_blob argv)])%list.

(** The output of the eleventh pass, the one doDnn reports on. *)
Definition last_prob (argv : list string) : Mat :=
  output (net_after 10 (net_in_use argv) (input_blob argv)) (input_blob argv).

(** The output of the first pass. *)
Definition first_prob (argv : list string) : Mat :=
  output (net_in_use argv) (input_blob argv).

(** What OpenCV documents of [blobFromImage]: the blob of one image is
    1 x channels x height x width, for the size asked. *)
Definition blobFromImage_shape : Prop :=
  forall (img : Img) (scalefactor : double) (sz : Size) (mean : Scalar)
         (swapRB : bool),
    dims (blobFromImage w img scalefactor sz mean swapRB)
    = [1; Img_channels w img; height sz; width sz].

(** What OpenCV documents of [imread] with its default flag: an image that
    could be decoded has three channels. *)
Definition imread_color : Prop :=
  forall filename : string,
    Img_empty w (imread w filename) = false ->
    Img_channels w (imread w filename) = 3.

(** The exception of one set-input/forward cycle, if one of its two calls
    throws. *)
Definition cycle_throws (net : Net) (blob : Mat) : option string :=
  match setInput_throws w net blob "data" with
  | Some what => Some what
  | None => forward_throws w (setInput w net blob "data") "prob"
  end.

(** The exception of the first of [n] successive cycles that throws. *)
Fixpoint cycles_throw (n : nat) (net : Net) (blob : Mat) : option string :=
  match n with
  | O => None
  | S n' =>
      match cycle_throws net blob with
      | Some what => Some what
      | None => cycles_throw n' (next_net net blob) blob
      end
  end.

(** The exception of the first call between the try block and the passes
    that throws: target selection, image reading, tensor construction. *)
Definition early_throw (argv : list string) : option string :=
  match target_throws argv with
  | Some what => Some what
  | None =>
      match imread_throws w (image_option argv) with
      | Some what => Some what
      | None =>
          if Img_empty w (imread w (image_option argv)) then None
          else blobFromImage_throws w (imread w (image_option argv))
                 (double_of_Z 1) (mk_Size 224 224) (Scalar3 104 117 123) false
      end
  end.

(** What the run did after target selection when one of these calls
    threw: nothing if it was target selection itself, else the image read. *)
Definition early_events (argv : list string) : trace :=
  match target_throws argv with
  | Some _ => []
  | None => [EvImread (image_option argv)]
  end.

(** The exception that ends the run of [doDnn] once the model is loaded:
    that of the first library call after the try block that throws. *)
Definition first_throw (argv : list string) : option string :=
  match early_throw argv with
  | Some what => Some what
  | None =>
      if image_unreadable argv then None
      else cycles_throw 11 (net_in_use argv) (input_blob argv)
  end.

(** The run gets to the first forward pass (line 134). *)
Definition reaches_inference (argv : list string) : bool :=
  negb (load_fails argv) && negb (image_unreadable argv) &&
  match early_throw argv with None => true | Some _ => false end.

(** The run gets to the report (line 143). *)
Definition reaches_report (argv : list string) : bool :=
  negb (load_fails argv) && negb (image_unreadable argv) &&
  match first_throw argv with None => true | Some _ => false end.

(** A network whose behaviour on a bound input does not depend on the
    passes it ran before: after a cycle that returned, a cycle on the same
    input returns as well, with the same output. *)
Definition deterministic : Prop :=
  forall (net : Net) (blob : Mat),
    cycle_throws net blob = None ->
    cycle_throws (next_net net blob) blob = None /\
    output (next_net net blob) blob = output net blob.

End Vocabulary.

(** An event that builds or binds the input tensor does so with the fixed
    parameters, and with the tensor [blob]. *)
Definition tensor_event_ok (blob : Mat) (e : event) : Prop :=
  match e with
  | EvBlobFromImage scalefactor sz mean swapRB b =>
      scalefactor = double_of_Z 1 /\ sz = mk_Size 224 224 /\
      mean = Scalar3 104 117 123 /\ swapRB = false /\ b = blob
  | EvSetInput b name => b = blob /\ name = "data"
  | _ => True
  end.

(** Writes to standard output: the usage text of the parser and the
    insertions into [std::cout]. *)
Definition is_stdout (e : event) : bool :=
  match e with EvPrintMessage | EvCout _ => true | _ => false end.

(** An event that builds the input tensor builds one of shape
    1 x 3 x 224 x 224. *)
Definition tensor_shape_ok (e : event) : Prop :=
  match e with
  | EvBlobFromImage _ _ _ _ b => dims b = [1; 3; 224; 224]
  | _ => True
  end.

(** The line with its first character removed. *)
Definition drop_first (s : string) : string :=
  match s with
  | EmptyString => EmptyString
  | String _ s' => s'
  end.

(** ** Sample worlds *)

Definition nl : string := String newline EmptyString.

(** The double [m * 2^e]. *)
Definition dyadic (m e : Z) : double := binary_normalize dprec demax m e false.

(** A world whose command line holds no option, whose network is a counter
    of the passes run so far, whose image is decoded when it is the default
    one, whose files read to their end and whose library calls return.
    [labels] is the content of synset_words.txt, [net] what
    [readNetFromCaffe] yields, [default_empty] what [empty()] says of a
    default-constructed network, [out] the output of a pass given the
    number of earlier passes. *)
Definition sample_world (labels : option string) (net : nat + string)
  (default_empty : bool) (out : nat -> list double) : World nat bool :=
  {| parser_get_bool := fun _ _ _ => false;
     parser_get_String := fun _ _ name =>
       if String.eqb name "proto" then "bvlc_googlenet.prototxt"
       else if String.eqb name "model" then "bvlc_googlenet.caffemodel"
       else "space_shuttle.jpg";
     file_contents := fun f =>
       if String.eqb f "synset_words.txt" then labels else None;
     read_error_after := fun _ => None;
     Net_default := 0%nat;
     Net_empty := fun n => Nat.eqb n 0 && default_empty;
     readNetFromCaffe := fun _ _ => net;
     setPreferableTarget := fun n _ => n;
     setPreferableTarget_throws := fun _ _ => None;
     setInput := fun n _ _ => n;
     setInput_throws := fun _ _ _ => None;
     forward := fun n _ =>
       (S n, mk_Mat [1; Z.of_nat (List.length (out n))] (out n));
     forward_throws := fun _ _ => None;
     blobFromImage := fun _ _ sz _ _ => mk_Mat [1; 3; height sz; width sz] [];
     blobFromImage_throws := fun _ _ _ _ _ => None;
     imread := fun f => String.eqb f "space_shuttle.jpg";
     imread_throws := fun _ => None;
     Img_empty := negb;
     Img_channels := fun _ => 3 |}.

Definition three_labels : string :=
  "n01440764 tench, Tinca tinca" ++ nl ++
  "n01443537 goldfish, Carassius auratus" ++ nl ++
  "n01484850 great white shark" ++ nl.

(** Probabilities 0.125, 0.625, 0.25. *)
Definition three_probs : list double := [dyadic 1 (-3); dyadic 5 (-3); dyadic 1 (-2)].

(** Everything in place. *)
Definition world_ok : World nat bool :=
  sample_world (Some three_labels) (inl 1%nat) true (fun _ => three_probs).

(** synset_words.txt is missing. *)
Definition world_no_labels : World nat bool :=
  sample_world None (inl 1%nat) true (fun _ => three_probs).

(** The model cannot be read and synset_words.txt is missing. *)
Definition world_no_model_no_labels : World nat bool :=
  sample_world None (inr "cannot open bvlc_googlenet.prototxt") true
               (fun _ => three_probs).

(** The model cannot be read. *)
Definition world_no_model : World nat bool :=
  sample_world (Some three_labels) (inr "cannot open bvlc_googlenet.prototxt") true
               (fun _ => three_probs).

(** The library throws, yet a default-constructed network is not empty. *)
Definition world_tolerant : World nat bool :=
  sample_world (Some three_labels) (inr "cannot open bvlc_googlenet.prototxt") false
               (fun _ => three_probs).

(** A label file with a single line, for a network with three classes. *)
Definition world_short_labels : World nat bool :=
  sample_world (Some ("n01440764 tench, Tinca tinca" ++ nl)) (inl 1%nat) true
               (fun _ => three_probs).

(** A label file whose third line holds no space and whose second is blank. *)
Definition world_plain_line : World nat bool :=
  sample_world (Some ("n01440764 tench" ++ nl ++ nl ++ "shark" ++ nl)) (inl 1%nat) true
               (fun _ => three_probs).

(** A network whose output depends on the passes run before. *)
Definition world_stateful : World nat bool :=
  sample_world (Some three_labels) (inl 1%nat) true
               (fun n => if Nat.eqb n 1 then three_probs
                         else [dyadic 1 (-1); dyadic 1 (-2); dyadic 1 (-2)]).

(** ** Further vocabulary and worlds *)

Definition is_target (e : event) : bool :=
  match e with EvSetPreferableTarget _ => true | _ => false end.

Definition is_close (e : event) : bool :=
  match e with EvClose => true | _ => false end.

Definition is_blob (e : event) : bool :=
  match e with EvBlobFromImage _ _ _ _ _ => true | _ => false end.

(** The world [w] with the answer of the parser for the boolean option
    [key] replaced by [b]. *)
Definition set_bool_option {Net Img : Type} (key : string) (b : bool)
  (w : World Net Img) : World Net Img :=
  {| parser_get_bool := fun keys argv name =>
       if String.eqb name key then b else parser_get_bool w keys argv name;
     parser_get_String := parser_get_String w;
     file_contents := file_contents w;
     read_error_after := read_error_after w;
     Net_default := Net_default w;
     Net_empty := Net_empty w;
     readNetFromCaffe := readNetFromCaffe w;
     setPreferableTarget := setPreferableTarget w;
     setPreferableTarget_throws := setPreferableTarget_throws w;
     setInput := setInput w;
     setInput_throws := setInput_throws w;
     forward := forward w;
     forward_throws := forward_throws w;
     blobFromImage := blobFromImage w;
     blobFromImage_throws := blobFromImage_throws w;
     imread := imread w;
     imread_throws := imread_throws w;
     Img_empty := Img_empty w;
     Img_channels := Img_channels w |}.

(** The world [w] with another file system. *)
Definition set_files {Net Img : Type} (files : string -> option string)
  (w : World Net Img) : World Net Img :=
  {| parser_get_bool := parser_get_bool w;
     parser_get_String := parser_get_String w;
     file_contents := files;
     read_error_after := read_error_after w;
     Net_default := Net_default w;
     Net_empty := Net_empty w;
     readNetFromCaffe := readNetFromCaffe w;
     setPreferableTarget := setPreferableTarget w;
     setPreferableTarget_throws := setPreferableTarget_throws w;
     setInput := setInput w;
     setInput_throws := setInput_throws w;
     forward := forward w;
     forward_throws := forward_throws w;
     blobFromImage := blobFromImage w;
     blobFromImage_throws := blobFromImage_throws w;
     imread := imread w;
     imread_throws := imread_throws w;
     Img_empty := Img_empty w;
     Img_channels := Img_channels w |}.

(** The world [w] in which no image can be decoded. *)
Definition without_image (w : World nat bool) : World nat bool :=
  {| parser_get_bool := parser_get_bool w;
     parser_get_String := parser_get_String w;
     file_contents := file_contents w;
     read_error_after := read_error_after w;
     Net_default := Net_default w;
     Net_empty := Net_empty w;
     readNetFromCaffe := readNetFromCaffe w;
     setPreferableTarget := setPreferableTarget w;
     setPreferableTarget_throws := setPreferableTarget_throws w;
     setInput := setInput w;
     setInput_throws := setInput_throws w;
     forward := forward w;
     forward_throws := forward_throws w;
     blobFromImage := blobFromImage w;
     blobFromImage_throws := blobFromImage_throws w;
     imread := fun _ => false;
     imread_throws := imread_throws w;
     Img_empty := Img_empty w;
     Img_channels := Img_channels w |}.

(** --help and --opencl given. *)
Definition world_help_opencl : World nat bool :=
  set_bool_option "opencl" true (set_bool_option "help" true world_ok).

(** The image cannot be decoded. *)
Definition world_no_image : World nat bool := without_image world_ok.

(** [readNetFromCaffe] returns, without throwing, a network that is empty. *)
Definition world_empty_net : World nat bool :=
  sample_world (Some three_labels) (inl 0%nat) true (fun _ => three_probs).

(** Two label files and their concatenation. *)
Definition two_files (f : string) : option string :=
  if String.eqb f "a.txt" then Some ("1 cat" ++ nl ++ "2 dog")
  else if String.eqb f "b.txt" then Some ("3 emu" ++ nl)
  else if String.eqb f "ab.txt"
       then Some (("1 cat" ++ nl ++ "2 dog") ++ String newline ("3 emu" ++ nl))
  else None.

Definition world_two_files : World nat bool := set_files two_files world_ok.


(** The world [w] in which the forward pass throws once the network has run
    [k] passes, and the files that cannot be read to their end are given by
    [broken]. *)
Definition with_failures (k : nat) (broken : string -> option string)
  (w : World nat bool) : World nat bool :=
  {| parser_get_bool := parser_get_bool w;
     parser_get_String := parser_get_String w;
     file_contents := fun f =>
       match broken f with Some _ => None | None => file_contents w f end;
     read_error_after := broken;
     Net_default := Net_default w;
     Net_empty := Net_empty w;
     readNetFromCaffe := readNetFromCaffe w;
     setPreferableTarget := setPreferableTarget w;
     setPreferableTarget_throws := setPreferableTarget_throws w;
     setInput := setInput w;
     setInput_throws := setInput_throws w;
     forward := forward w;
     forward_throws := fun n _ =>
       if Nat.eqb n k then Some "forward: layer failed" else None;
     blobFromImage := blobFromImage w;
     blobFromImage_throws := blobFromImage_throws w;
     imread := imread w;
     imread_throws := imread_throws w;
     Img_empty := Img_empty w;
     Img_channels := Img_channels w |}.

(** synset_words.txt is missing and the fourth forward pass throws (the
    network comes out of the load with counter 1). *)
Definition world_pass_throws : World nat bool :=
  with_failures 4 (fun _ => None) world_no_labels.

(** synset_words.txt is a directory: it opens, and reading it fails at
    once.  No pass throws (the counter never reaches 0). *)
Definition world_directory : World nat bool :=
  with_failures 0
    (fun f => if String.eqb f "synset_words.txt" then Some EmptyString else None)
    world_ok.

(* ===================================================================== *)
(** * Properties *)
(* ===================================================================== *)

(** ** std::string *)

Lemma size_nonneg (s : string) : 0 <= size s.
Proof. unfold size. lia. Qed.

Lemma size_String (c : ascii) (s : string) : size (String c s) = size s + 1.
Proof. unfold size. simpl String.length. lia. Qed.

Lemma find_from_absent (c : ascii) (s : string) (i : Z) :
  occurs c s = false -> find_from s c i = npos.
Proof.
  revert i. induction s as [|d s IH]; intros i H;
    cbn [occurs find_from] in *.
  - reflexivity.
  - apply orb_false_iff in H as [Hd Hs]. rewrite Hd. now apply IH.
Qed.

Lemma find_from_present (c : ascii) (s : string) (i : Z) :
  occurs c s = true ->
  i <= find_from s c i < i + size s /\
  skip (Z.to_nat (find_from s c i - i + 1)) s = after_first c s.
Proof.
  revert i. induction s as [|d s IH]; intros i H;
    cbn [occurs find_from after_first] in *.
  - discriminate.
  - rewrite size_String. destruct (Ascii.eqb d c) eqn:E.
    + pose proof (size_nonneg s). split; [lia|].
      replace (i - i + 1) with 1 by lia. reflexivity.
    + cbn [orb] in H. destruct (IH (i + 1) H) as [Hr Hs]. split; [lia|].
      replace (find_from s c (i + 1) - i + 1)
        with (Z.succ (find_from s c (i + 1) - (i + 1) + 1)) by lia.
      rewrite Z2Nat.inj_succ by lia. cbn [skip]. exact Hs.
Qed.

Lemma skip_0 (s : string) : skip 0 s = s.
Proof. destruct s; reflexivity. Qed.

(** [name.substr(name.find(' ') + 1)] when [name] has no space: [find]
    gives [npos], [npos + 1] wraps around to 0, and the whole string comes
    back. *)
Lemma substr_find_absent (name : string) :
  occurs space name = false ->
  substr name (size_t_add (find name space) 1) = Ret name.
Proof.
  intros H. unfold find. rewrite (find_from_absent _ _ 0 H).
  change (size_t_add npos 1) with 0. unfold substr.
  pose proof (size_nonneg name).
  destruct (size name <? 0) eqn:E; [apply Z.ltb_lt in E; lia|].
  change (Z.to_nat 0) with 0%nat. now rewrite skip_0.
Qed.

Lemma substr_find_present (name : string) :
  occurs space name = true -> size name < size_t_modulus ->
  substr name (size_t_add (find name space) 1) = Ret (after_first space name).
Proof.
  intros H Hlen. unfold find.
  destruct (find_from_present space name 0 H) as [Hr Hs].
  unfold size_t_add. rewrite Z.mod_small by lia.
  unfold substr.
  destruct (size name <? find_from name space 0 + 1) eqn:E;
    [apply Z.ltb_lt in E; lia|].
  rewrite <- Hs. do 2 f_equal. lia.
Qed.

Lemma substr_find (name : string) :
  size name < size_t_modulus ->
  substr name (size_t_add (find name space) 1) = Ret (label_of_line name).
Proof.
  intros Hlen. unfold label_of_line. destruct (occurs space name) eqn:E.
  - now apply substr_find_present.
  - now apply substr_find_absent.
Qed.

(** ** Lines of a text *)

Lemma read_line_lines (s : string) :
  match read_line s with
  | (l, None) => lines s = [l]
  | (l, Some rest) => lines s = l :: lines rest
  end.
Proof.
  induction s as [|c s IH]; simpl.
  - reflexivity.
  - destruct (Ascii.eqb c newline).
    + reflexivity.
    + destruct (read_line s) as [l [rest|]]; rewrite IH; reflexivity.
Qed.

Lemma read_line_size (s : string) :
  size (fst (read_line s)) <= size s /\
  match snd (read_line s) with
  | Some rest => size rest < size s
  | None => True
  end.
Proof.
  induction s as [|c s IH]; simpl.
  - split; [reflexivity|exact I].
  - rewrite size_String. pose proof (size_nonneg s).
    destruct (Ascii.eqb c newline); simpl.
    + unfold size at 1. simpl. lia.
    + destruct (read_line s) as [l [rest|]]; simpl in *;
        rewrite ?size_String; intuition lia.
Qed.

Lemma lines_length (s : string) :
  (1 <= List.length (lines s) <= String.length s + 1)%nat.
Proof.
  induction s as [|c s IH]; simpl.
  - lia.
  - destruct (Ascii.eqb c newline); simpl; [lia|].
    destruct (lines s); simpl in *; lia.
Qed.

Lemma unlines_cons (l : string) (ls : list string) :
  ls <> [] -> unlines (l :: ls) = l ++ String newline (unlines ls).
Proof. destruct ls; [congruence|reflexivity]. Qed.

Lemma unlines_lines (s : string) : unlines (lines s) = s.
Proof.
  induction s as [|c s IH]; simpl.
  - reflexivity.
  - pose proof (lines_length s) as Hn.
    destruct (Ascii.eqb c newline) eqn:E.
    + apply Ascii.eqb_eq in E. subst c.
      rewrite unlines_cons by (destruct (lines s); simpl in *; [lia|congruence]).
      simpl. now rewrite IH.
    + destruct (lines s) as [|l ls]; simpl in *; [lia|].
      destruct ls; simpl in *; now rewrite <- IH.
Qed.

Lemma lines_app_newline (l rest : string) :
  occurs newline l = false ->
  lines (l ++ String newline rest) = l :: lines rest.
Proof.
  induction l as [|c l IH]; simpl; intros H.
  - reflexivity.
  - apply orb_false_iff in H as [Hc Hl]. rewrite Hc, (IH Hl). reflexivity.
Qed.

Lemma lines_single (l : string) : occurs newline l = false -> lines l = [l].
Proof.
  induction l as [|c l IH]; simpl; intros H.
  - reflexivity.
  - apply orb_false_iff in H as [Hc Hl]. rewrite Hc, (IH Hl). reflexivity.
Qed.

Lemma lines_unlines (ls : list string) :
  ls <> [] -> Forall (fun l => occurs newline l = false) ls ->
  lines (unlines ls) = ls.
Proof.
  induction ls as [|l ls IH]; intros Hne Hall; [congruence|].
  inversion Hall as [|? ? Hl Hls]; subst.
  destruct ls as [|l' ls'].
  - simpl. now apply lines_single.
  - rewrite unlines_cons by congruence.
    rewrite lines_app_newline by assumption.
    f_equal. apply IH; [congruence|assumption].
Qed.

Lemma lines_no_newline (s : string) :
  Forall (fun l => occurs newline l = false) (lines s).
Proof.
  induction s as [|c s IH]; simpl.
  - repeat constructor.
  - destruct (Ascii.eqb c newline) eqn:E.
    + constructor; [reflexivity|assumption].
    + destruct (lines s) as [|l ls]; [repeat constructor; simpl; now rewrite E|].
      inversion IH; subst. constructor; [simpl; now rewrite E|assumption].
Qed.

Lemma nonempty_size (s : string) : (0 <? size s) = nonempty s.
Proof. destruct s; reflexivity. Qed.

Lemma labels_of_lines_cons (l : string) (ls : list string) :
  labels_of_lines (l :: ls) =
  ((if nonempty l then [label_of_line l] else []) ++ labels_of_lines ls)%list.
Proof. unfold labels_of_lines. simpl. destruct (nonempty l); reflexivity. Qed.

Lemma labels_of_lines_app (ls ls' : list string) :
  labels_of_lines (ls ++ ls') = (labels_of_lines ls ++ labels_of_lines ls')%list.
Proof. unfold labels_of_lines. now rewrite filter_app, map_app. Qed.

(** ** The label loader *)

Section Loader.

Context {Net Img : Type}.
Variable w : World Net Img.

(** On a stream that reads to its end the loop ends, and leaves one label
    per non-empty line. *)
Lemma readLoop_lines (fuel : nat) : forall (s : string) (acc : vector string),
  size s < size_t_modulus ->
  (List.length (lines s) < fuel)%nat ->
  readLoop fuel (mk_ifstream s false false false false) acc
  = Ret (acc ++ labels_of_lines (lines s))%list.
Proof.
  induction fuel as [|fuel IH]; intros s acc Hsz Hfuel; [lia|].
  cbn [readLoop eofbit]. unfold getline.
  cbn [eofbit failbit badbit read_error pending orb].
  pose proof (read_line_lines s) as Hl.
  pose proof (read_line_size s) as [Hs1 Hs2].
  destruct (read_line s) as [l [rest|]]; cbn [fst snd] in *; rewrite Hl in *.
  - rewrite labels_of_lines_cons, nonempty_size.
    destruct (nonempty l).
    + rewrite substr_find by lia.
      rewrite IH by (simpl in Hfuel; lia).
      unfold push_back. now rewrite <- app_assoc.
    + rewrite IH by (simpl in Hfuel; lia). reflexivity.
  - rewrite labels_of_lines_cons, nonempty_size.
    simpl in Hfuel. destruct fuel as [|fuel']; [lia|].
    destruct (nonempty l).
    + rewrite substr_find by lia. reflexivity.
    + cbn. now rewrite app_nil_r.
Qed.

Lemma readClassNames_opened (filename content : string) :
  file_contents w filename = Some content ->
  size content < size_t_modulus ->
  readClassNames w filename
  = ([EvOpen filename true; EvClose], Ret (labels_of_lines (lines content))).
Proof.
  intros Hf Hsz. unfold readClassNames, open_ifstream. rewrite Hf. cbn [pending].
  rewrite readLoop_lines; [reflexivity|assumption|].
  pose proof (lines_length content). lia.
Qed.

Lemma readClassNames_missing (filename : string) :
  open_ifstream w filename = None ->
  readClassNames w filename
  = ([EvOpen filename false;
      EvCerr (PStr "File with classes labels not found: ");
      EvCerr (PStr filename); EvCerr PEndl], Exit (-1)).
Proof. intros Hf. unfold readClassNames. rewrite Hf. reflexivity. Qed.

(** [substr] at the position the loader computes never throws. *)
Lemma substr_find_returns (name : string) :
  exists label, substr name (size_t_add (find name space) 1) = Ret label.
Proof.
  destruct (occurs space name) eqn:E.
  - unfold find. destruct (find_from_present space name 0 E) as [Hr _].
    unfold substr, size_t_add.
    assert (H : (find_from name space 0 + 1) mod size_t_modulus
                <= find_from name space 0 + 1)
      by (apply Z.mod_le; [lia|reflexivity]).
    destruct (size name <? (find_from name space 0 + 1) mod size_t_modulus) eqn:E';
      [apply Z.ltb_lt in E'; lia|].
    eauto.
  - rewrite substr_find_absent by assumption. eauto.
Qed.

Lemma getline_stuck (fp : ifstream) : stuck fp -> stuck (fst (getline fp)).
Proof.
  intros [He Hs]. unfold getline, stuck.
  destruct (eofbit fp || failbit fp || badbit fp) eqn:Eb; cbn [fst eofbit failbit].
  - auto.
  - apply orb_false_iff in Eb as [Eb Eb3]. apply orb_false_iff in Eb as [_ Eb2].
    destruct Hs as [Hr|[Hf|Hb]]; try congruence.
    destruct (read_line (pending fp)) as [l [rest|]]; [cbn; auto|].
    rewrite Hr. cbn. auto.
Qed.

(** On a stream that meets a read error the loop never ends: whatever the
    bound on its iterations, it is still running when the bound is
    reached. *)
Lemma readLoop_stuck (fuel : nat) : forall (fp : ifstream) (acc : vector string),
  stuck fp -> readLoop fuel fp acc = Diverge.
Proof.
  induction fuel as [|fuel IH]; intros fp acc Hs; [reflexivity|].
  cbn [readLoop]. destruct Hs as [He Hs]. rewrite He.
  pose proof (getline_stuck fp (conj He Hs)) as Hs'.
  destruct (getline fp) as [fp' name]. cbn [fst] in Hs'.
  destruct (0 <? size name).
  - destruct (substr_find_returns name) as [label ->]. now apply IH.
  - now apply IH.
Qed.

Lemma readClassNames_read_error (filename data : string) :
  file_contents w filename = None ->
  read_error_after w filename = Some data ->
  readClassNames w filename = ([EvOpen filename true], Diverge).
Proof.
  intros Hf Hr. unfold readClassNames, open_ifstream. rewrite Hf, Hr.
  rewrite readLoop_stuck; [reflexivity|]. split; cbn; auto.
Qed.

End Loader.

(** ** Order on doubles *)

Lemma Zcompare_cases (a b : Z) :
  (a < b /\ (a ?= b) = Lt) \/ (a = b /\ (a ?= b) = Eq) \/ (b < a /\ (a ?= b) = Gt).
Proof. destruct (Z.compare_spec a b); auto. Qed.

Lemma Poscompare_cases (a b : positive) :
  ((a < b)%positive /\ Pos.compare_cont Eq a b = Lt) \/
  (a = b /\ Pos.compare_cont Eq a b = Eq) \/
  ((b < a)%positive /\ Pos.compare_cont Eq a b = Gt).
Proof.
  change (Pos.compare_cont Eq a b) with (Pos.compare a b).
  destruct (Pos.compare_spec a b); auto.
Qed.

Ltac order_cases :=
  repeat match goal with
  | H : context [Z.compare ?a ?b] |- _ =>
      let Hc := fresh in
      destruct (Zcompare_cases a b) as [[? Hc]|[[? Hc]|[? Hc]]];
      rewrite Hc in *; clear Hc
  | |- context [Z.compare ?a ?b] =>
      let Hc := fresh in
      destruct (Zcompare_cases a b) as [[? Hc]|[[? Hc]|[? Hc]]];
      rewrite Hc in *; clear Hc
  | H : context [Pos.compare_cont Eq ?a ?b] |- _ =>
      let Hc := fresh in
      destruct (Poscompare_cases a b) as [[? Hc]|[[? Hc]|[? Hc]]];
      rewrite Hc in *; clear Hc
  | |- context [Pos.compare_cont Eq ?a ?b] =>
      let Hc := fresh in
      destruct (Poscompare_cases a b) as [[? Hc]|[[? Hc]|[? Hc]]];
      rewrite Hc in *; clear Hc
  end.

Ltac float_cases a b c :=
  destruct a as [[|]|[|]| |[|] ? ?], b as [[|]|[|]| |[|] ? ?], c as [[|]|[|]| |[|] ? ?];
  cbn [SFcompare is_nan]; try discriminate; try reflexivity.

Lemma dlt_trans (a b c : double) :
  dlt a b = true -> dlt b c = true -> dlt a c = true.
Proof.
  unfold dlt, SFltb. float_cases a b c; intros H1 H2;
    order_cases; cbn [CompOpp] in *; try discriminate; try reflexivity; lia.
Qed.

Lemma dlt_irrefl (a : double) : dlt a a = false.
Proof.
  unfold dlt, SFltb. destruct a as [[|]|[|]| |[|] m e]; cbn [SFcompare];
    try reflexivity; order_cases; cbn [CompOpp]; try reflexivity; lia.
Qed.

(** [b <= a] and [a < c] give [b < c], NaNs apart. *)
Lemma dlt_le_trans (a b c : double) :
  is_nan a = false -> is_nan b = false ->
  dlt a b = false -> dlt a c = true -> dlt b c = true.
Proof.
  unfold dlt, SFltb. float_cases a b c; intros _ _ H1 H2;
    order_cases; cbn [CompOpp] in *; try discriminate; try reflexivity; lia.
Qed.

(** ** The maximum scan *)

Lemma max_scan_inv (l : list double) : forall (pre : list double) (best : double) (besti i : Z),
  i = Z.of_nat (List.length pre) ->
  max_at pre besti best ->
  (no_nan (pre ++ l) -> first_at pre besti best) ->
  max_at (pre ++ l) (snd (max_scan best besti i l)) (fst (max_scan best besti i l)) /\
  (no_nan (pre ++ l) ->
   first_at (pre ++ l) (snd (max_scan best besti i l)) (fst (max_scan best besti i l))).
Proof.
  induction l as [|e l IH]; intros pre best besti i Hi Hmax Hfirst.
  - rewrite app_nil_r in *. cbn [max_scan fst snd]. auto.
  - cbn [max_scan].
    replace (pre ++ e :: l)%list with ((pre ++ [e]) ++ l)%list in *
      by (rewrite <- app_assoc; reflexivity).
    destruct Hmax as (Hk & Hnth & Hge).
    assert (Hlen : Z.of_nat (List.length (pre ++ [e])) = i + 1)
      by (rewrite length_app; simpl; lia).
    destruct (dlt best e) eqn:E.
    + apply IH.
      * lia.
      * repeat split.
        -- lia.
        -- lia.
        -- rewrite Hi, Nat2Z.id, nth_error_app2 by lia.
           now rewrite Nat.sub_diag.
        -- intros e' Hin. apply in_app_or in Hin as [Hin|[<-|[]]].
           ++ destruct (dlt e e') eqn:E'; [|reflexivity].
              rewrite <- (Hge e' Hin). symmetry. eapply dlt_trans; eassumption.
           ++ apply dlt_irrefl.
      * intros Hnn j e' Hj Hj'.
        rewrite Hi, Nat2Z.id in Hj.
        rewrite nth_error_app1 in Hj' by lia.
        assert (Hin : In e' pre) by (eapply nth_error_In; eassumption).
        assert (Hb : In best pre) by (eapply nth_error_In; eassumption).
        apply dlt_le_trans with (a := best).
        -- apply Hnn. apply in_or_app. left. apply in_or_app. now left.
        -- apply Hnn. apply in_or_app. left. apply in_or_app. now left.
        -- now apply Hge.
        -- exact E.
    + apply IH.
      * lia.
      * repeat split.
        -- lia.
        -- lia.
        -- rewrite nth_error_app1; [assumption|]. lia.
        -- intros e' Hin. apply in_app_or in Hin as [Hin|[<-|[]]]; auto.
      * intros Hnn j e' Hj Hj'.
        rewrite nth_error_app1 in Hj' by lia.
        exact (Hfirst Hnn j e' Hj Hj').
Qed.

(** [minMaxLoc] on a one-row matrix with at least one element: the value
    reported is an element no other element exceeds, [x] is its index, and
    when no element is a NaN it is the first index holding the maximum. *)
Lemma minMaxLoc_row (m : Mat) :
  elems m <> [] ->
  let r := minMaxLoc (reshape_1_1 m) in
  max_at (elems m) (x (snd r)) (fst r) /\
  y (snd r) = 0 /\
  (no_nan (elems m) -> first_at (elems m) (x (snd r)) (fst r)).
Proof.
  intros Hne. unfold minMaxLoc, reshape_1_1, cols. cbn [elems dims nth].
  destruct (elems m) as [|v l] eqn:Ev; [congruence|].
  destruct (max_scan_inv l [v] v 0 1) as [Hmax Hfirst].
  - reflexivity.
  - repeat split; simpl; try lia. intros e [<-|[]]. apply dlt_irrefl.
  - intros _ j e Hj. simpl in Hj. lia.
  - cbn [app] in *.
    destruct (max_scan v 0 1 l) as [best i] eqn:Es. cbn [fst snd x y] in *.
    assert (Hi : 0 <= i < Z.of_nat (List.length (v :: l))) by apply Hmax.
    rewrite Z.mod_small, Z.div_small by lia. auto.
Qed.

(** ** The trace monad *)

Lemma bind_Ret {A B} (t : trace) (a : A) (f : A -> M B) :
  bind (t, Ret a) f = ((t ++ events_of (f a))%list, result_of (f a)).
Proof. unfold bind, events_of, result_of. now destruct (f a). Qed.

Lemma M_eta {A} (m : M A) : m = (events_of m, result_of m).
Proof. now destruct m. Qed.

Lemma couts_app (t t' : trace) :
  couts (t ++ t')%list = (couts t ++ couts t')%list.
Proof. apply flat_map_app. Qed.

Lemma cerrs_app (t t' : trace) :
  cerrs (t ++ t')%list = (cerrs t ++ cerrs t')%list.
Proof. apply flat_map_app. Qed.

Lemma forward_outputs_app (t t' : trace) :
  forward_outputs (t ++ t')%list = (forward_outputs t ++ forward_outputs t')%list.
Proof. apply flat_map_app. Qed.

Lemma input_blobs_app (t t' : trace) :
  input_blobs (t ++ t')%list = (input_blobs t ++ input_blobs t')%list.
Proof. apply flat_map_app. Qed.

(** ** The phases of [doDnn] *)

Section Run.

Context {Net Img : Type}.
Variable w : World Net Img.

Lemma loadNet_read (modelTxt modelBin : string) (net : Net) :
  readNetFromCaffe w modelTxt modelBin = inl net ->
  loadNet w modelTxt modelBin = ([EvReadNet modelTxt modelBin], Ret net).
Proof.
  intros H. unfold loadNet, call_readNetFromCaffe. rewrite H. reflexivity.
Qed.

Lemma loadNet_thrown_empty (modelTxt modelBin what : string) :
  readNetFromCaffe w modelTxt modelBin = inr what ->
  Net_empty w (Net_default w) = true ->
  loadNet w modelTxt modelBin
  = ([EvReadNet modelTxt modelBin;
      EvCerr (PStr "Exception: "); EvCerr (PStr what); EvCerr PEndl;
      EvCerr (PStr "Can't load network by using the following files: "); EvCerr PEndl;
      EvCerr (PStr "prototxt:   "); EvCerr (PStr modelTxt); EvCerr PEndl;
      EvCerr (PStr "caffemodel: "); EvCerr (PStr modelBin); EvCerr PEndl;
      EvCerr (PStr "bvlc_googlenet.caffemodel can be downloaded here:"); EvCerr PEndl;
      EvCerr (PStr "http://dl.caffe.berkeleyvision.org/bvlc_googlenet.caffemodel");
      EvCerr PEndl],
     Exit (-1)).
Proof.
  intros H He. unfold loadNet, call_readNetFromCaffe. rewrite H, He. reflexivity.
Qed.

Lemma loadNet_thrown_nonempty (modelTxt modelBin what : string) :
  readNetFromCaffe w modelTxt modelBin = inr what ->
  Net_empty w (Net_default w) = false ->
  loadNet w modelTxt modelBin
  = ([EvReadNet modelTxt modelBin;
      EvCerr (PStr "Exception: "); EvCerr (PStr what); EvCerr PEndl],
     Ret (Net_default w)).
Proof.
  intros H He. unfold loadNet, call_readNetFromCaffe. rewrite H, He. reflexivity.
Qed.

(** *** The passes *)

Lemma cycle_returns (net : Net) (blob : Mat) :
  cycle_throws w net blob = None ->
  cycle w net blob
  = ([EvSetInput blob "data"; EvForward "prob" (output w net blob)],
     Ret (next_net w net blob, output w net blob)).
Proof.
  unfold cycle_throws, cycle, output, next_net. intros H.
  destruct (setInput_throws w net blob "data"); [discriminate|].
  cbn. rewrite H. cbn.
  now destruct (forward w (setInput w net blob "data") "prob").
Qed.

Lemma cycle_thrown (net : Net) (blob : Mat) (what : string) :
  cycle_throws w net blob = Some what ->
  cycle w net blob = ([EvSetInput blob "data"], Throw (cv_Exception what)).
Proof.
  unfold cycle_throws, cycle. intros H.
  destruct (setInput_throws w net blob "data") as [e|].
  - injection H as ->. reflexivity.
  - cbn. rewrite H. reflexivity.
Qed.

Lemma repeat_cycle_returns (n : nat) : forall (net : Net) (blob prob : Mat),
  cycles_throw w n net blob = None ->
  repeat_cycle w n net blob prob
  = (cycles_trace w n net blob,
     Ret (net_after w n net blob,
          match n with
          | O => prob
          | S n' => output w (net_after w n' net blob) blob
          end)).
Proof.
  induction n as [|n IH]; intros net blob prob H.
  - reflexivity.
  - cbn [cycles_throw] in H.
    destruct (cycle_throws w net blob) eqn:E; [discriminate|].
    cbn [repeat_cycle]. rewrite (cycle_returns _ _ E), bind_Ret. cbn [fst snd].
    rewrite (IH _ _ _ H). cbn [events_of result_of fst snd app cycles_trace net_after].
    destruct n; reflexivity.
Qed.

(** When a pass throws, the loop stops there: [k] whole cycles, then the
    binding of the input of the cycle that throws. *)
Lemma repeat_cycle_thrown (n : nat) : forall (net : Net) (blob prob : Mat) (what : string),
  cycles_throw w n net blob = Some what ->
  exists k, (k < n)%nat /\
    cycles_throw w k net blob = None /\
    cycle_throws w (net_after w k net blob) blob = Some what /\
    repeat_cycle w n net blob prob
    = ((cycles_trace w k net blob ++ [EvSetInput blob "data"])%list,
       Throw (cv_Exception what)).
Proof.
  induction n as [|n IH]; intros net blob prob what H; [discriminate|].
  cbn [cycles_throw] in H. cbn [repeat_cycle].
  destruct (cycle_throws w net blob) as [e|] eqn:E.
  - injection H as ->. exists 0%nat. rewrite (cycle_thrown _ _ _ E).
    repeat split; [lia|assumption].
  - rewrite (cycle_returns _ _ E), bind_Ret. cbn [fst snd].
    destruct (IH _ _ (output w net blob) _ H) as (k & Hk & Hn & Ht & ->).
    exists (S k). cbn [cycles_throw cycles_trace net_after]. rewrite E.
    repeat split; [lia|assumption|assumption].
Qed.

Lemma runNet_returns (net : Net) (blob : Mat) :
  cycles_throw w 11 net blob = None ->
  runNet w net blob
  = (cycles_trace w 11 net blob, Ret (output w (net_after w 10 net blob) blob)).
Proof.
  intros H. change 11%nat with (S 10) in H. cbn [cycles_throw] in H.
  destruct (cycle_throws w net blob) eqn:E; [discriminate|].
  unfold runNet. rewrite (cycle_returns _ _ E), bind_Ret. cbn [fst snd].
  rewrite (repeat_cycle_returns 10 _ _ _ H). reflexivity.
Qed.

Lemma runNet_thrown (net : Net) (blob : Mat) (what : string) :
  cycles_throw w 11 net blob = Some what ->
  exists k, (k < 11)%nat /\
    cycles_throw w k net blob = None /\
    cycle_throws w (net_after w k net blob) blob = Some what /\
    runNet w net blob
    = ((cycles_trace w k net blob ++ [EvSetInput blob "data"])%list,
       Throw (cv_Exception what)).
Proof.
  intros H. change 11%nat with (S 10) in H. cbn [cycles_throw] in H.
  unfold runNet. destruct (cycle_throws w net blob) as [e|] eqn:E.
  - injection H as ->. exists 0%nat. rewrite (cycle_thrown _ _ _ E).
    repeat split; [lia|assumption].
  - rewrite (cycle_returns _ _ E), bind_Ret. cbn [fst snd].
    destruct (repeat_cycle_thrown 10 _ _ (output w net blob) _ H)
      as (k & Hk & Hn & Ht & ->).
    exists (S k). cbn [cycles_throw cycles_trace net_after]. rewrite E.
    repeat split; [lia|assumption|assumption].
Qed.

Lemma runNet_once_returns (net : Net) (blob : Mat) :
  cycle_throws w net blob = None ->
  runNet_once w net blob = (cycles_trace w 1 net blob, Ret (output w net blob)).
Proof. intros H. unfold runNet_once. rewrite (cycle_returns _ _ H). reflexivity. Qed.

Lemma runNet_once_thrown (net : Net) (blob : Mat) (what : string) :
  cycle_throws w net blob = Some what ->
  runNet_once w net blob = ([EvSetInput blob "data"], Throw (cv_Exception what)).
Proof. intros H. unfold runNet_once. rewrite (cycle_thrown _ _ _ H). reflexivity. Qed.

(** For a deterministic network a first cycle that returns is followed by
    cycles that return the same output. *)
Lemma deterministic_passes (Hdet : deterministic w) (n : nat) :
  forall (net : Net) (blob : Mat),
    cycle_throws w net blob = None ->
    cycles_throw w n net blob = None /\
    cycle_throws w (net_after w n net blob) blob = None /\
    output w (net_after w n net blob) blob = output w net blob.
Proof.
  induction n as [|n IH]; intros net blob H; cbn [cycles_throw net_after].
  - auto.
  - rewrite H. destruct (Hdet net blob H) as [H1 H2].
    destruct (IH (next_net w net blob) blob H1) as (I1 & I2 & I3).
    repeat split; try assumption. congruence.
Qed.

Lemma couts_cycles_trace (n : nat) : forall (net : Net) (blob : Mat),
  couts (cycles_trace w n net blob) = [] /\
  cerrs (cycles_trace w n net blob) = [].
Proof. induction n as [|n IH]; intros net blob; cbn; auto. Qed.

Lemma forward_outputs_cycles_trace (n : nat) : forall (net : Net) (blob : Mat),
  List.length (forward_outputs (cycles_trace w n net blob)) = n /\
  input_blobs (cycles_trace w n net blob) = repeat blob n /\
  nth_error (forward_outputs (cycles_trace w (S n) net blob)) n
  = Some (output w (net_after w n net blob) blob).
Proof.
  induction n as [|n IH]; intros net blob.
  - cbn. auto.
  - destruct (IH (next_net w net blob) blob) as (H1 & H2 & H3).
    repeat split.
    + change (forward_outputs (cycles_trace w (S n) net blob))
        with (output w net blob
              :: forward_outputs (cycles_trace w n (next_net w net blob) blob)).
      cbn [List.length]. now rewrite H1.
    + change (input_blobs (cycles_trace w (S n) net blob))
        with (blob :: input_blobs (cycles_trace w n (next_net w net blob) blob)).
      rewrite H2. reflexivity.
    + cbn [net_after]. rewrite <- H3. reflexivity.
Qed.

(** *** The report *)

Lemma vector_at_in_range {A} (v : vector A) (i : Z) :
  0 <= i < Z.of_nat (List.length v) ->
  exists a, nth_error v (Z.to_nat i) = Some a /\ vector_at v i = Ret a.
Proof.
  intros Hi. unfold vector_at.
  replace ((0 <=? i) && (i <? Z.of_nat (List.length v))) with true
    by (symmetry; apply andb_true_iff; split; [apply Z.leb_le|apply Z.ltb_lt]; lia).
  destruct (nth_error v (Z.to_nat i)) as [a|] eqn:E.
  - now exists a.
  - apply nth_error_None in E. lia.
Qed.

Lemma vector_at_out_of_range {A} (v : vector A) (i : Z) :
  ~ 0 <= i < Z.of_nat (List.length v) ->
  vector_at v i = Throw std_out_of_range.
Proof.
  intros Hi. unfold vector_at.
  destruct ((0 <=? i) && (i <? Z.of_nat (List.length v))) eqn:E; [|reflexivity].
  apply andb_true_iff in E as [E1 E2].
  apply Z.leb_le in E1. apply Z.ltb_lt in E2. lia.
Qed.

(** On a stream that reads to its end the loop of [readClassNames]
    terminates, whatever the characters. *)
Lemma readLoop_returns (fuel : nat) : forall (s : string) (acc : vector string),
  (List.length (lines s) < fuel)%nat ->
  exists classNames,
    readLoop fuel (mk_ifstream s false false false false) acc = Ret classNames.
Proof.
  induction fuel as [|fuel IH]; intros s acc Hfuel; [lia|].
  cbn [readLoop eofbit]. unfold getline.
  cbn [eofbit failbit badbit read_error pending orb].
  pose proof (read_line_lines s) as Hl.
  destruct (read_line s) as [l [rest|]]; rewrite Hl in Hfuel; cbn [List.length] in Hfuel.
  - destruct (0 <? size l).
    + destruct (substr_find_returns l) as [label ->]. apply IH. lia.
    + apply IH. lia.
  - destruct fuel as [|fuel']; [lia|].
    destruct (0 <? size l).
    + destruct (substr_find_returns l) as [label ->]. cbn. eauto.
    + cbn. eauto.
Qed.

Lemma readClassNames_returns (filename content : string) :
  file_contents w filename = Some content ->
  exists classNames,
    readClassNames w filename = ([EvOpen filename true; EvClose], Ret classNames).
Proof.
  intros Hf. unfold readClassNames, open_ifstream. rewrite Hf. cbn [pending].
  destruct (readLoop_returns (String.length content + 2) content [])
    as [classNames ->].
  - pose proof (lines_length content). lia.
  - now exists classNames.
Qed.

Lemma report_labels_missing (prob : Mat) :
  open_ifstream w "synset_words.txt" = None ->
  report w prob
  = ([EvOpen "synset_words.txt" false;
      EvCerr (PStr "File with classes labels not found: ");
      EvCerr (PStr "synset_words.txt"); EvCerr PEndl], Exit (-1)).
Proof.
  intros Hf. unfold report. rewrite (readClassNames_missing w _ Hf). reflexivity.
Qed.

Lemma report_labels_unreadable (prob : Mat) (data : string) :
  file_contents w "synset_words.txt" = None ->
  read_error_after w "synset_words.txt" = Some data ->
  report w prob = ([EvOpen "synset_words.txt" true], Diverge).
Proof.
  intros Hf Hr. unfold report.
  rewrite (readClassNames_read_error w _ _ Hf Hr). reflexivity.
Qed.

Lemma report_found (prob : Mat) (t : trace) (classNames : vector string)
  (label : string) :
  readClassNames w "synset_words.txt" = (t, Ret classNames) ->
  vector_at classNames (size_t_of_int (classId_of prob)) = Ret label ->
  report w prob
  = ((t ++ [EvCout (PStr "Best class: #"); EvCout (PInt (classId_of prob));
            EvCout (PStr " '"); EvCout (PStr label); EvCout (PStr "'");
            EvCout PEndl;
            EvCout (PStr "Probability: ");
            EvCout (PDouble (dmul (classProb_of prob) (double_of_Z 100)));
            EvCout (PStr "%"); EvCout PEndl])%list,
     Ret tt).
Proof.
  intros Hr Hat. unfold report. fold (classId_of prob) (classProb_of prob).
  rewrite Hr, bind_Ret. cbn. rewrite Hat. reflexivity.
Qed.

Lemma report_lookup_throws (prob : Mat) (t : trace) (classNames : vector string)
  (e : exn) :
  readClassNames w "synset_words.txt" = (t, Ret classNames) ->
  vector_at classNames (size_t_of_int (classId_of prob)) = Throw e ->
  report w prob
  = ((t ++ [EvCout (PStr "Best class: #"); EvCout (PInt (classId_of prob));
            EvCout (PStr " '")])%list,
     Throw e).
Proof.
  intros Hr Hat. unfold report. fold (classId_of prob) (classProb_of prob).
  rewrite Hr, bind_Ret. cbn. rewrite Hat. reflexivity.
Qed.

(** *** The run up to the passes *)

Lemma load_fails_true (argv : list string) :
  load_fails w argv = true ->
  result_of (loadNet w (proto_option w argv) (model_option w argv)) = Exit (-1).
Proof.
  unfold load_fails. intros H.
  destruct (readNetFromCaffe w (proto_option w argv) (model_option w argv))
    as [net|what] eqn:E; [discriminate|].
  now rewrite (loadNet_thrown_empty _ _ _ E H).
Qed.

Lemma load_fails_false (argv : list string) :
  load_fails w argv = false ->
  result_of (loadNet w (proto_option w argv) (model_option w argv))
  = Ret (loaded_net w argv).
Proof.
  unfold load_fails, loaded_net. intros H.
  destruct (readNetFromCaffe w (proto_option w argv) (model_option w argv))
    as [net|what] eqn:E.
  - now rewrite (loadNet_read _ _ _ E).
  - now rewrite (loadNet_thrown_nonempty _ _ _ E H).
Qed.

Lemma bind_unit_prefix {B : Type} (b : bool) (e : event) (k : M B) :
  bind (if b then emit e else ret tt) (fun _ => k)
  = (((if b then [e] else []) ++ events_of k)%list, result_of k).
Proof. destruct b, k as [t r]; reflexivity. Qed.

(** [doDnn] stops in the model-loading block. *)
Lemma doDnn_with_load_fails (run : Net -> Mat -> M Mat) (argv : list string) :
  load_fails w argv = true ->
  doDnn_with w run argv = ((help_events w argv ++ load_events w argv)%list, Exit (-1)).
Proof.
  intros H. apply load_fails_true in H.
  unfold doDnn_with, help_events, load_events.
  fold (help_option w argv) (proto_option w argv) (model_option w argv).
  rewrite (M_eta (loadNet w (proto_option w argv) (model_option w argv))), H.
  destruct (help_option w argv); reflexivity.
Qed.

(** [doDnn] leaves the try block and goes on with the network it holds. *)
Lemma doDnn_with_goes_on (run : Net -> Mat -> M Mat) (argv : list string) :
  load_fails w argv = false ->
  doDnn_with w run argv
  = ((help_events w argv ++ load_events w argv ++
      events_of (classify w run (image_option w argv) (opencl_option w argv)
                          (loaded_net w argv)))%list,
     result_of (classify w run (image_option w argv) (opencl_option w argv)
                         (loaded_net w argv))).
Proof.
  intros H. apply load_fails_false in H.
  unfold doDnn_with. rewrite bind_unit_prefix.
  fold (help_option w argv) (proto_option w argv) (model_option w argv)
       (image_option w argv) (opencl_option w argv).
  fold (help_events w argv).
  rewrite (M_eta (loadNet w (proto_option w argv) (model_option w argv))), H.
  rewrite bind_Ret. reflexivity.
Qed.

Ltac run_step :=
  cbn [bind emit call ret lift cerr cout exit_ app fst snd events_of result_of].

(** What [classify] does before the passes. *)
Lemma classify_early_throw (run : Net -> Mat -> M Mat) (argv : list string)
  (what : string) :
  early_throw w argv = Some what ->
  image_unreadable w argv = false /\
  classify w run (image_option w argv) (opencl_option w argv) (loaded_net w argv)
  = ((target_events w argv ++ early_events w argv)%list, Throw (cv_Exception what)).
Proof.
  unfold early_throw, early_events, image_unreadable, target_throws, target_events,
    classify.
  destruct (opencl_option w argv);
    [destruct (setPreferableTarget_throws w (loaded_net w argv) DNN_TARGET_OPENCL)|];
    try (intros H; injection H as ->; split; reflexivity).
  all: destruct (imread_throws w (image_option w argv));
    try (intros H; injection H as ->; split; reflexivity).
  all: destruct (Img_empty w (imread w (image_option w argv))) eqn:Hi;
    try discriminate.
  all: intros H; split; [reflexivity|];
    run_step; rewrite Hi; run_step; rewrite H; reflexivity.
Qed.

Lemma classify_image_unreadable (run : Net -> Mat -> M Mat) (argv : list string) :
  image_unreadable w argv = true ->
  early_throw w argv = None /\
  classify w run (image_option w argv) (opencl_option w argv) (loaded_net w argv)
  = ((target_events w argv ++
      [EvImread (image_option w argv);
       EvCerr (PStr "Can't read image from the file: ");
       EvCerr (PStr (image_option w argv)); EvCerr PEndl])%list,
     Exit (-1)).
Proof.
  unfold early_throw, image_unreadable, target_throws, target_events, classify.
  destruct (opencl_option w argv);
    [destruct (setPreferableTarget_throws w (loaded_net w argv) DNN_TARGET_OPENCL)|];
    try discriminate.
  all: destruct (imread_throws w (image_option w argv)); try discriminate.
  all: intros H; rewrite H; split; [reflexivity|]; run_step; rewrite H;
    reflexivity.
Qed.

Lemma classify_inference (run : Net -> Mat -> M Mat) (argv : list string) :
  early_throw w argv = None ->
  image_unreadable w argv = false ->
  classify w run (image_option w argv) (opencl_option w argv) (loaded_net w argv)
  = ((target_events w argv ++
      [EvImread (image_option w argv);
       EvBlobFromImage (double_of_Z 1) (mk_Size 224 224) (Scalar3 104 117 123) false
                       (input_blob w argv)] ++
      events_of (bind (run (net_in_use w argv) (input_blob w argv)) (report w)))%list,
     result_of (bind (run (net_in_use w argv) (input_blob w argv)) (report w))).
Proof.
  unfold early_throw, image_unreadable, target_throws, target_events, classify,
    net_in_use, input_blob, loaded_net.
  destruct (opencl_option w argv);
    [destruct (setPreferableTarget_throws w _ DNN_TARGET_OPENCL)|];
    try discriminate.
  all: destruct (imread_throws w (image_option w argv)); try discriminate.
  all: intros H Hi; rewrite Hi in H; run_step; rewrite Hi; run_step;
    rewrite H; run_step;
    match goal with
    | |- context [bind ?m ?f] => destruct (bind m f)
    end; reflexivity.
Qed.

End Run.

(** * The label file *)

Lemma labels_when_spaced (ls : list string) :
  Forall (fun l => occurs space l = true) ls ->
  labels_of_lines ls = map (after_first space) ls.
Proof.
  induction 1 as [|l ls Hl _ IH]; [reflexivity|].
  rewrite labels_of_lines_cons, IH. unfold label_of_line. rewrite Hl.
  destruct l; [discriminate|reflexivity].
Qed.

Lemma unlines_terminated (ls : list string) :
  ls <> [] -> (unlines ls ++ nl)%string = unlines (ls ++ [EmptyString]).
Proof.
  induction ls as [|l ls IH]; intros Hne; [congruence|].
  destruct ls as [|l' ls'].
  - cbn. reflexivity.
  - change ((l :: l' :: ls') ++ [EmptyString])%list
      with (l :: ((l' :: ls') ++ [EmptyString]))%list.
    rewrite (unlines_cons l (l' :: ls')) by congruence.
    rewrite (unlines_cons l ((l' :: ls') ++ [EmptyString])) by discriminate.
    rewrite <- IH by congruence.
    generalize (unlines (l' :: ls')). intros u.
    clear. induction l as [|c l IH]; cbn; [reflexivity|]. now rewrite IH.
Qed.

(** The labels of a file made of the lines [ls], whether or not its last
    line is terminated. *)
Lemma labels_of_file (ls : list string) (content : string) :
  Forall (fun l => occurs newline l = false) ls ->
  content = unlines ls \/ content = (unlines ls ++ nl)%string ->
  labels_of_lines (lines content) = labels_of_lines ls.
Proof.
  intros Hnl Hc. destruct ls as [|l ls].
  - destruct Hc as [->| ->]; reflexivity.
  - destruct Hc as [->| ->].
    + rewrite lines_unlines by (congruence || assumption). reflexivity.
    + rewrite unlines_terminated by congruence.
      rewrite lines_unlines.
      * rewrite labels_of_lines_app. cbn. now rewrite app_nil_r.
      * destruct ls; discriminate.
      * apply Forall_app. split; [assumption|]. repeat constructor.
Qed.

Lemma occurs_app (c d : ascii) (a b : string) :
  occurs c (a ++ String d b) = occurs c a || (Ascii.eqb d c || occurs c b).
Proof.
  induction a as [|e a IH]; cbn [append occurs].
  - reflexivity.
  - now rewrite IH, orb_assoc.
Qed.

Lemma after_first_app (c : ascii) (a b : string) :
  occurs c a = false -> after_first c (a ++ String c b) = b.
Proof.
  induction a as [|e a IH]; cbn [append occurs after_first]; intros H.
  - now rewrite Ascii.eqb_refl.
  - apply orb_false_iff in H as [-> H]. now apply IH.
Qed.

(** C6.  A label file of N well-formed lines, each an id, a space and a
    label (written with or without a final newline), loads as exactly N
    entries, in file order, each the text after the first space of its
    line; that text is the label when the id holds no space. *)
Theorem C6_well_formed_file {Net Img : Type} (w : World Net Img)
  (filename content : string) (entries : list (string * string))
  (ls : list string) :
  file_contents w filename = Some content ->
  size content < size_t_modulus ->
  Forall (fun p => occurs newline (fst p) = false /\
                   occurs newline (snd p) = false) entries ->
  ls = map (fun p => well_formed_line (fst p) (snd p)) entries ->
  content = unlines ls \/ content = (unlines ls ++ nl)%string ->
  exists classNames,
    result_of (readClassNames w filename) = Ret classNames /\
    List.length classNames = List.length entries /\
    classNames = map (after_first space) ls /\
    (Forall (fun p => occurs space (fst p) = false) entries ->
     classNames = map snd entries).
Proof.
  intros Hf Hsz Hwf -> Hc.
  exists (map (after_first space)
              (map (fun p => well_formed_line (fst p) (snd p)) entries)).
  rewrite (readClassNames_opened w _ _ Hf Hsz). cbn [result_of snd].
  repeat split.
  - rewrite (labels_of_file
               (map (fun p => well_formed_line (fst p) (snd p)) entries)).
    + apply f_equal, labels_when_spaced.
      apply Forall_map, Forall_forall. intros p _. unfold well_formed_line.
      rewrite occurs_app, Ascii.eqb_refl. apply orb_true_r.
    + apply Forall_map. eapply Forall_impl; [|exact Hwf].
      intros p [H1 H2]. unfold well_formed_line. rewrite occurs_app, H1, H2.
      reflexivity.
    + exact Hc.
  - now rewrite !length_map.
  - intros Hid. rewrite map_map. apply map_ext_in. intros p Hp.
    rewrite Forall_forall in Hid. unfold well_formed_line.
    now apply after_first_app, Hid.
Qed.

Lemma C6_witness :
  exists classNames,
    result_of (readClassNames world_ok "synset_words.txt") = Ret classNames /\
    List.length classNames = 3%nat /\
    classNames
    = map (after_first space)
          ["n01440764 tench, Tinca tinca";
           "n01443537 goldfish, Carassius auratus";
           "n01484850 great white shark"] /\
    (Forall (fun p => occurs space (fst p) = false)
            [("n01440764", "tench, Tinca tinca");
             ("n01443537", "goldfish, Carassius auratus");
             ("n01484850", "great white shark")] ->
     classNames
     = ["tench, Tinca tinca"; "goldfish, Carassius auratus"; "great white shark"]).
Proof.
  apply (C6_well_formed_file world_ok "synset_words.txt" three_labels
           [("n01440764", "tench, Tinca tinca");
            ("n01443537", "goldfish, Carassius auratus");
            ("n01484850", "great white shark")]).
  - reflexivity.
  - vm_compute. reflexivity.
  - repeat constructor.
  - reflexivity.
  - right. reflexivity.
Defined.

Lemma labels_of_lines_middle (pre post : list string) (l : string) :
  nonempty l = true ->
  labels_of_lines (pre ++ l :: post)
  = (labels_of_lines pre ++ label_of_line l :: labels_of_lines post)%list.
Proof.
  intros Hl. rewrite labels_of_lines_app, labels_of_lines_cons, Hl. reflexivity.
Qed.

Lemma nth_error_split {A} (l : list A) (i : nat) (a : A) :
  nth_error l i = Some a -> l = (firstn i l ++ a :: skipn (S i) l)%list.
Proof.
  revert l. induction i as [|i IH]; intros [|b l] H; try discriminate.
  - cbn in H. injection H as ->. reflexivity.
  - cbn in H. cbn [firstn skipn app]. f_equal. now apply IH.
Qed.

(** C2, as the code has it.  A non-empty line without a space is appended
    whole: [find] answers [npos], [npos + 1] wraps around to 0, and
    [substr(0)] is the line itself. *)
Theorem C2_line_without_space {Net Img : Type} (w : World Net Img)
  (filename content line : string) (pre post : list string) :
  file_contents w filename = Some content ->
  size content < size_t_modulus ->
  lines content = (pre ++ line :: post)%list ->
  nonempty line = true ->
  occurs space line = false ->
  substr line (size_t_add (find line space) 1) = Ret line /\
  result_of (readClassNames w filename)
  = Ret (labels_of_lines pre ++ line :: labels_of_lines post)%list.
Proof.
  intros Hf Hsz Hl Hne Hsp. split; [now apply substr_find_absent|].
  rewrite (readClassNames_opened w _ _ Hf Hsz). cbn [result_of snd].
  rewrite Hl, labels_of_lines_middle by assumption.
  unfold label_of_line. now rewrite Hsp.
Qed.

Lemma C2_witness :
  substr "shark" (size_t_add (find "shark" space) 1) = Ret "shark" /\
  result_of (readClassNames world_plain_line "synset_words.txt")
  = Ret (labels_of_lines ["n01440764 tench"; ""] ++
         "shark" :: labels_of_lines [""])%list.
Proof.
  apply (C2_line_without_space world_plain_line "synset_words.txt"
           ("n01440764 tench" ++ nl ++ nl ++ "shark" ++ nl) "shark"
           ["n01440764 tench"; ""] [""]).
  - reflexivity.
  - vm_compute. reflexivity.
  - reflexivity.
  - reflexivity.
  - reflexivity.
Defined.

(** C2 as stated does not hold: the file of [world_plain_line] has the
    non-empty line "shark", without a space, and the loader appends "shark",
    not "hark". *)
Lemma C2_counterexample :
  file_contents world_plain_line "synset_words.txt"
  = Some ("n01440764 tench" ++ nl ++ nl ++ "shark" ++ nl) /\
  lines ("n01440764 tench" ++ nl ++ nl ++ "shark" ++ nl)
  = (["n01440764 tench"; ""] ++ "shark" :: [""])%list /\
  nonempty "shark" = true /\
  occurs space "shark" = false /\
  result_of (readClassNames world_plain_line "synset_words.txt")
  = Ret ["tench"; "shark"] /\
  result_of (readClassNames world_plain_line "synset_words.txt")
  <> Ret (labels_of_lines ["n01440764 tench"; ""] ++
          drop_first "shark" :: labels_of_lines [""])%list.
Proof.
  repeat split; try reflexivity.
  vm_compute. discriminate.
Qed.

(** C10.  The loader keeps one entry per non-empty line, in order, and
    drops the empty ones: the index of a label is the number of non-empty
    lines before its line, not its line number, and a file with a blank
    line loads as the same file without it. *)
Theorem C10_blank_lines_skipped {Net Img : Type} (w : World Net Img)
  (filename content : string) :
  file_contents w filename = Some content ->
  size content < size_t_modulus ->
  exists classNames,
    result_of (readClassNames w filename) = Ret classNames /\
    classNames = map label_of_line (filter nonempty (lines content)) /\
    (forall (i : nat) (l : string),
        nth_error (lines content) i = Some l -> nonempty l = true ->
        nth_error classNames
                  (List.length (filter nonempty (firstn i (lines content))))
        = Some (label_of_line l)) /\
    (forall pre post : list string,
        lines content = (pre ++ EmptyString :: post)%list ->
        classNames = labels_of_lines (pre ++ post)).
Proof.
  intros Hf Hsz. exists (labels_of_lines (lines content)).
  rewrite (readClassNames_opened w _ _ Hf Hsz). cbn [result_of snd].
  repeat split.
  - intros i l Hi Hl.
    rewrite (nth_error_split _ _ _ Hi) at 1.
    rewrite labels_of_lines_middle by assumption.
    replace (List.length (filter nonempty (firstn i (lines content))))
      with (List.length (labels_of_lines (firstn i (lines content))))
      by apply length_map.
    rewrite nth_error_app2 by lia. now rewrite Nat.sub_diag.
  - intros pre post ->.
    now rewrite !labels_of_lines_app, labels_of_lines_cons.
Qed.

Lemma C10_witness :
  exists classNames,
    result_of (readClassNames world_plain_line "synset_words.txt") = Ret classNames /\
    classNames
    = map label_of_line
          (filter nonempty (lines ("n01440764 tench" ++ nl ++ nl ++ "shark" ++ nl))) /\
    (forall (i : nat) (l : string),
        nth_error (lines ("n01440764 tench" ++ nl ++ nl ++ "shark" ++ nl)) i = Some l ->
        nonempty l = true ->
        nth_error classNames
          (List.length
             (filter nonempty
                (firstn i (lines ("n01440764 tench" ++ nl ++ nl ++ "shark" ++ nl)))))
        = Some (label_of_line l)) /\
    (forall pre post : list string,
        lines ("n01440764 tench" ++ nl ++ nl ++ "shark" ++ nl)
        = (pre ++ EmptyString :: post)%list ->
        classNames = labels_of_lines (pre ++ post)).
Proof.
  apply (C10_blank_lines_skipped world_plain_line "synset_words.txt"
           ("n01440764 tench" ++ nl ++ nl ++ "shark" ++ nl)).
  - reflexivity.
  - vm_compute. reflexivity.
Defined.

(** In [world_plain_line] the line "shark" is line 2 of the file (counting
    from 0) and class 1 of the label list. *)
Example blank_line_shifts_index :
  nth_error (lines ("n01440764 tench" ++ nl ++ nl ++ "shark" ++ nl)) 2 = Some "shark" /\
  result_of (readClassNames world_plain_line "synset_words.txt")
  = Ret ["tench"; "shark"].
Proof. split; reflexivity. Qed.


(** * Whole runs *)

Section Runs.

Context {Net Img : Type}.
Variable w : World Net Img.

Lemma load_events_cases (argv : list string) :
  (exists net,
      readNetFromCaffe w (proto_option w argv) (model_option w argv) = inl net /\
      load_fails w argv = false /\
      load_events w argv = [EvReadNet (proto_option w argv) (model_option w argv)]) \/
  (exists what,
      readNetFromCaffe w (proto_option w argv) (model_option w argv) = inr what /\
      Net_empty w (Net_default w) = false /\
      load_fails w argv = false /\
      load_events w argv
      = [EvReadNet (proto_option w argv) (model_option w argv);
         EvCerr (PStr "Exception: "); EvCerr (PStr what); EvCerr PEndl]) \/
  (exists what,
      readNetFromCaffe w (proto_option w argv) (model_option w argv) = inr what /\
      Net_empty w (Net_default w) = true /\
      load_fails w argv = true /\
      load_events w argv
      = [EvReadNet (proto_option w argv) (model_option w argv);
         EvCerr (PStr "Exception: "); EvCerr (PStr what); EvCerr PEndl;
         EvCerr (PStr "Can't load network by using the following files: ");
         EvCerr PEndl;
         EvCerr (PStr "prototxt:   "); EvCerr (PStr (proto_option w argv));
         EvCerr PEndl;
         EvCerr (PStr "caffemodel: "); EvCerr (PStr (model_option w argv));
         EvCerr PEndl;
         EvCerr (PStr "bvlc_googlenet.caffemodel can be downloaded here:");
         EvCerr PEndl;
         EvCerr (PStr "http://dl.caffe.berkeleyvision.org/bvlc_googlenet.caffemodel");
         EvCerr PEndl]).
Proof.
  unfold load_events, load_fails.
  destruct (readNetFromCaffe w (proto_option w argv) (model_option w argv))
    as [net|what] eqn:E.
  - left. exists net. rewrite (loadNet_read w _ _ _ E). auto.
  - destruct (Net_empty w (Net_default w)) eqn:He.
    + right. right. exists what. rewrite (loadNet_thrown_empty w _ _ _ E He). auto.
    + right. left. exists what. rewrite (loadNet_thrown_nonempty w _ _ _ E He). auto.
Qed.

(** How [report] proceeds: the label file cannot be opened; or it opens and
    reading it meets an error, and the loop never ends; or it is read and
    the lookup succeeds; or it is read and the lookup throws. *)
Lemma report_cases (prob : Mat) :
  (labels_missing w = true /\ labels_unreadable w = false /\
   report w prob
   = ([EvOpen "synset_words.txt" false;
       EvCerr (PStr "File with classes labels not found: ");
       EvCerr (PStr "synset_words.txt"); EvCerr PEndl], Exit (-1))) \/
  (labels_missing w = false /\ labels_unreadable w = true /\
   file_contents w "synset_words.txt" = None /\
   report w prob = ([EvOpen "synset_words.txt" true], Diverge)) \/
  (labels_missing w = false /\ labels_unreadable w = false /\
   exists (content : string) (classNames : vector string),
      file_contents w "synset_words.txt" = Some content /\
      readClassNames w "synset_words.txt"
      = ([EvOpen "synset_words.txt" true; EvClose], Ret classNames) /\
      ((exists label,
           vector_at classNames (size_t_of_int (classId_of prob)) = Ret label /\
           report w prob
           = ([EvOpen "synset_words.txt" true; EvClose;
               EvCout (PStr "Best class: #"); EvCout (PInt (classId_of prob));
               EvCout (PStr " '"); EvCout (PStr label); EvCout (PStr "'");
               EvCout PEndl;
               EvCout (PStr "Probability: ");
               EvCout (PDouble (dmul (classProb_of prob) (double_of_Z 100)));
               EvCout (PStr "%"); EvCout PEndl], Ret tt)) \/
       (vector_at classNames (size_t_of_int (classId_of prob))
        = Throw std_out_of_range /\
        report w prob
        = ([EvOpen "synset_words.txt" true; EvClose;
            EvCout (PStr "Best class: #"); EvCout (PInt (classId_of prob));
            EvCout (PStr " '")], Throw std_out_of_range)))).
Proof.
  unfold labels_missing, labels_unreadable.
  destruct (file_contents w "synset_words.txt") as [content|] eqn:Hf.
  - right. right. unfold open_ifstream. rewrite Hf. cbn [read_error].
    split; [reflexivity|]. split; [reflexivity|].
    destruct (readClassNames_returns w _ _ Hf) as [classNames Hr].
    exists content, classNames. repeat split; try assumption.
    destruct (Z_lt_dec (size_t_of_int (classId_of prob))
                       (Z.of_nat (List.length classNames))) as [Hlt|Hge].
    + assert (Hi : 0 <= size_t_of_int (classId_of prob)
                   < Z.of_nat (List.length classNames)).
      { split; [|assumption]. apply Z.mod_pos_bound. reflexivity. }
      destruct (vector_at_in_range classNames _ Hi) as (label & _ & Hat).
      left. exists label. split; [assumption|].
      now rewrite (report_found w prob _ _ _ Hr Hat).
    + assert (Hat : vector_at classNames (size_t_of_int (classId_of prob))
                    = Throw std_out_of_range)
        by (apply vector_at_out_of_range; lia).
      right. split; [assumption|].
      now rewrite (report_lookup_throws w prob _ _ _ Hr Hat).
  - destruct (read_error_after w "synset_words.txt") as [data|] eqn:Hr.
    + right. left. unfold open_ifstream. rewrite Hf, Hr. cbn [read_error].
      repeat split. now apply (report_labels_unreadable w prob data).
    + left. assert (Ho : open_ifstream w "synset_words.txt" = None)
        by (unfold open_ifstream; now rewrite Hf, Hr).
      rewrite Ho. repeat split. now apply report_labels_missing.
Qed.

(** The ways a run of [doDnn] can go, whatever its inference step. *)
Lemma doDnn_with_cases (argv : list string) :
  (load_fails w argv = true /\
   forall run,
     doDnn_with w run argv
     = ((help_events w argv ++ load_events w argv)%list, Exit (-1))) \/
  (load_fails w argv = false /\ image_unreadable w argv = false /\
   exists what,
     early_throw w argv = Some what /\
     forall run,
       doDnn_with w run argv
       = ((help_events w argv ++ load_events w argv ++ target_events w argv ++
           early_events w argv)%list, Throw (cv_Exception what))) \/
  (load_fails w argv = false /\ image_unreadable w argv = true /\
   early_throw w argv = None /\
   forall run,
     doDnn_with w run argv
     = ((help_events w argv ++ load_events w argv ++ target_events w argv ++
         [EvImread (image_option w argv);
          EvCerr (PStr "Can't read image from the file: ");
          EvCerr (PStr (image_option w argv)); EvCerr PEndl])%list,
        Exit (-1))) \/
  (load_fails w argv = false /\ image_unreadable w argv = false /\
   early_throw w argv = None /\
   forall run,
     doDnn_with w run argv
     = ((setup_events w argv ++
         events_of (bind (run (net_in_use w argv) (input_blob w argv)) (report w)))%list,
        result_of (bind (run (net_in_use w argv) (input_blob w argv)) (report w)))).
Proof.
  destruct (load_fails w argv) eqn:Hl.
  { left. split; [reflexivity|]. intros run. now apply doDnn_with_load_fails. }
  right.
  destruct (early_throw w argv) as [what|] eqn:Ee.
  { left. destruct (classify_early_throw w (runNet w) _ _ Ee) as (Hi & _).
    repeat split; try assumption. exists what. split; [reflexivity|]. intros run.
    rewrite (doDnn_with_goes_on w run _ Hl).
    destruct (classify_early_throw w run _ _ Ee) as (_ & ->).
    cbn [events_of result_of fst snd]. now rewrite <- ?app_assoc. }
  right. destruct (image_unreadable w argv) eqn:Hi.
  { left. repeat split. intros run. rewrite (doDnn_with_goes_on w run _ Hl).
    destruct (classify_image_unreadable w run _ Hi) as (_ & ->).
    reflexivity. }
  right. repeat split. intros run. rewrite (doDnn_with_goes_on w run _ Hl).
  rewrite (classify_inference w run _ Ee Hi).
  cbn [events_of result_of fst snd]. unfold setup_events.
  now rewrite <- ?app_assoc.
Qed.

(** The five ways a run of [doDnn] can go. *)
Lemma doDnn_cases (argv : list string) :
  (load_fails w argv = true /\
   doDnn w argv = ((help_events w argv ++ load_events w argv)%list, Exit (-1))) \/
  (load_fails w argv = false /\ image_unreadable w argv = false /\
   exists what pre,
     early_throw w argv = Some what /\ first_throw w argv = Some what /\
     (pre = [] \/ pre = [EvImread (image_option w argv)]) /\
     doDnn w argv
     = ((help_events w argv ++ load_events w argv ++ target_events w argv ++
         pre)%list, Throw (cv_Exception what))) \/
  (load_fails w argv = false /\ image_unreadable w argv = true /\
   early_throw w argv = None /\ first_throw w argv = None /\
   doDnn w argv
   = ((help_events w argv ++ load_events w argv ++ target_events w argv ++
       [EvImread (image_option w argv);
        EvCerr (PStr "Can't read image from the file: ");
        EvCerr (PStr (image_option w argv)); EvCerr PEndl])%list,
      Exit (-1))) \/
  (load_fails w argv = false /\ image_unreadable w argv = false /\
   early_throw w argv = None /\
   exists what k,
     first_throw w argv = Some what /\ (k < 11)%nat /\
     doDnn w argv
     = ((setup_events w argv ++
         cycles_trace w k (net_in_use w argv) (input_blob w argv) ++
         [EvSetInput (input_blob w argv) "data"])%list,
        Throw (cv_Exception what))) \/
  (load_fails w argv = false /\ image_unreadable w argv = false /\
   early_throw w argv = None /\ first_throw w argv = None /\
   doDnn w argv
   = ((setup_events w argv ++
       cycles_trace w 11 (net_in_use w argv) (input_blob w argv) ++
       events_of (report w (last_prob w argv)))%list,
      result_of (report w (last_prob w argv)))).
Proof.
  unfold doDnn, first_throw.
  destruct (doDnn_with_cases argv)
    as [[Hl E]|[(Hl & Hi & what & Ee & E)|
       [(Hl & Hi & Ee & E)|(Hl & Hi & Ee & E)]]]; rewrite E; clear E.
  - left. auto.
  - right. left. repeat split; try assumption. exists what, (early_events w argv).
    rewrite Ee. repeat split.
    unfold early_events. destruct (target_throws w argv); auto.
  - right. right. left. rewrite Ee, Hi. auto.
  - right. right. right. rewrite Ee, Hi.
    destruct (cycles_throw w 11 (net_in_use w argv) (input_blob w argv))
      as [what|] eqn:Ec.
    + left. repeat split; try assumption.
      destruct (runNet_thrown w _ _ _ Ec) as (k & Hk & _ & _ & ->).
      exists what, k. repeat split; assumption.
    + right. rewrite (runNet_returns w _ _ Ec), bind_Ret.
      repeat split; assumption.
Qed.

Lemma main_status (argv : list string) :
  snd (main w argv)
  = match result_of (doDnn w argv) with
    | Ret _ => Exited 0
    | Exit s => Exited s
    | Throw e => Terminated e
    | Undefined => UndefinedRun
    | Diverge => Hangs
    end.
Proof.
  unfold main, result_of. now destruct (doDnn w argv) as [t [a|s'|e| |]].
Qed.

Lemma main_events (argv : list string) :
  fst (main w argv) = events_of (doDnn w argv).
Proof.
  unfold main, events_of. now destruct (doDnn w argv) as [t [a|s'|e| |]].
Qed.

Lemma reaches_report_true (argv : list string) :
  reaches_report w argv = true <->
  load_fails w argv = false /\ image_unreadable w argv = false /\
  first_throw w argv = None.
Proof.
  unfold reaches_report.
  destruct (load_fails w argv), (image_unreadable w argv), (first_throw w argv);
    cbn; split; intros H; try discriminate; try tauto;
    destruct H as (? & ? & ?); discriminate.
Qed.

End Runs.

(** ** Exit status *)

(** The ways [main] ends, and when. *)
Lemma main_status_characterised {Net Img : Type} (w : World Net Img)
  (argv : list string) :
  (snd (main w argv) = Exited (-1) <->
   load_fails w argv = true \/ image_unreadable w argv = true \/
   (reaches_report w argv = true /\ labels_missing w = true)) /\
  (snd (main w argv) = Exited 0 <->
   load_fails w argv = false /\ image_unreadable w argv = false /\
   first_throw w argv = None /\
   exists classNames label,
     result_of (readClassNames w "synset_words.txt") = Ret classNames /\
     vector_at classNames (size_t_of_int (classId_of (last_prob w argv))) = Ret label) /\
  (snd (main w argv) = Terminated std_out_of_range <->
   load_fails w argv = false /\ image_unreadable w argv = false /\
   first_throw w argv = None /\
   exists classNames,
     result_of (readClassNames w "synset_words.txt") = Ret classNames /\
     vector_at classNames (size_t_of_int (classId_of (last_prob w argv)))
     = Throw std_out_of_range) /\
  (forall what,
      snd (main w argv) = Terminated (cv_Exception what) <->
      load_fails w argv = false /\ first_throw w argv = Some what) /\
  (snd (main w argv) = Hangs <->
   reaches_report w argv = true /\ labels_unreadable w = true) /\
  (snd (main w argv) = Exited 0 \/
   snd (main w argv) = Exited (-1) \/
   snd (main w argv) = Terminated std_out_of_range \/
   (exists what, snd (main w argv) = Terminated (cv_Exception what)) \/
   snd (main w argv) = Hangs).
Proof.
  rewrite main_status, reaches_report_true.
  destruct (doDnn_cases w argv)
    as [[Hl E]|[(Hl & Hi & what & pre & Ee & Ef & Hp & E)|
       [(Hl & Hi & Ee & Ef & E)|[(Hl & Hi & Ee & what & k & Ef & Hk & E)|
        (Hl & Hi & Ee & Ef & E)]]]];
    rewrite E, Hl; try rewrite Hi; try rewrite Ef; cbn [result_of snd]; clear E.
  - repeat split; intros; try discriminate; try tauto; try intuition congruence.
    all: try (destruct H as (? & _); discriminate).
  - repeat split; intros; try discriminate; try tauto; try intuition congruence.
    all: try (destruct H as (? & ? & ? & _); discriminate).
    all: try (destruct H as [?|[?|((? & ? & ?) & _)]]; discriminate).
    all: try (destruct H as ((? & ? & ?) & _); discriminate).
    right. right. right. left. eauto.
  - repeat split; intros; try discriminate; try tauto; try intuition congruence.
    all: try (destruct H as (? & ? & _); discriminate).
    all: try (destruct H as ((? & ? & ?) & _); discriminate).
  - repeat split; intros; try discriminate; try tauto; try intuition congruence.
    all: try (destruct H as (? & ? & ? & _); discriminate).
    all: try (destruct H as [?|[?|((? & ? & ?) & _)]]; discriminate).
    all: try (destruct H as ((? & ? & ?) & _); discriminate).
    right. right. right. left. eauto.
  - destruct (report_cases w (last_prob w argv))
      as [(Hm & Hu & Hr)|[(Hm & Hu & Hf & Hr)|
         (Hm & Hu & content & classNames & Hf & Hn & [(label & Hat & Hr)|[Hat Hr]])]];
      rewrite Hr, Hm, Hu; cbn [result_of snd]; try rewrite Hn; cbn [result_of snd].
    + assert (Hx : result_of (readClassNames w "synset_words.txt") = Exit (-1)).
      { unfold labels_missing in Hm.
        destruct (open_ifstream w "synset_words.txt") eqn:Ho; [discriminate|].
        now rewrite (readClassNames_missing w _ Ho). }
      rewrite Hx.
      repeat split; intros; try discriminate; try tauto; try intuition congruence.
      all: try (destruct H as (_ & _ & _ & ? & ? & ? & _); discriminate).
      all: try (destruct H as (_ & _ & _ & ? & ? & _); discriminate).
    + assert (Hx : result_of (readClassNames w "synset_words.txt") = Diverge).
      { pose proof Hu as Hd. unfold labels_unreadable, open_ifstream in Hd.
        rewrite Hf in Hd.
        destruct (read_error_after w "synset_words.txt") as [data|] eqn:Hd';
          [|discriminate].
        now rewrite (readClassNames_read_error w _ _ Hf Hd'). }
      rewrite Hx.
      repeat split; intros; try discriminate; try tauto; try intuition congruence.
      all: try (destruct H as (_ & _ & _ & ? & ? & ? & _); discriminate).
      all: try (destruct H as (_ & _ & _ & ? & ? & _); discriminate).
    + repeat split; intros; try discriminate; try tauto; try intuition congruence.
      * exists classNames, label. auto.
      * destruct H as (_ & _ & _ & cn & E & H). injection E as <-. congruence.
    + repeat split; intros; try discriminate; try tauto; try intuition congruence.
      * destruct H as (_ & _ & _ & cn & lb & E & H). injection E as <-. congruence.
      * exists classNames. auto.
Qed.

(** C4.  The only statuses the program hands to the environment are 0 and
    -1.  It exits with -1 exactly in the three failure cases: the model load
    throws and leaves the handle empty, or the image read comes back empty,
    or the run gets to the label lookup and the label file cannot be opened;
    when no library call after the model-loading block throws, that is:
    exactly when the load fails, the image is unreadable or the label file
    is missing.  It returns 0 exactly when the run is a success: model
    loaded, image read, the passes done, label of the class found.  In every
    other run no status comes from the program's own logic: an exception
    nothing catches ends the process ([std::out_of_range] from the lookup,
    [cv::Exception] from a library call after the try block), or the read
    loop of the label file never ends. *)
Theorem C4_exit_status {Net Img : Type} (w : World Net Img) (argv : list string) :
  (forall s : Z, snd (main w argv) = Exited s -> s = 0 \/ s = -1) /\
  (snd (main w argv) = Exited (-1) <->
   load_fails w argv = true \/ image_unreadable w argv = true \/
   (reaches_report w argv = true /\ labels_missing w = true)) /\
  (first_throw w argv = None ->
   (snd (main w argv) = Exited (-1) <->
    load_fails w argv = true \/ image_unreadable w argv = true \/
    labels_missing w = true)) /\
  (snd (main w argv) = Exited 0 <->
   load_fails w argv = false /\ image_unreadable w argv = false /\
   first_throw w argv = None /\
   exists classNames label,
     result_of (readClassNames w "synset_words.txt") = Ret classNames /\
     vector_at classNames (size_t_of_int (classId_of (last_prob w argv))) = Ret label) /\
  (forall what,
      snd (main w argv) = Terminated (cv_Exception what) <->
      load_fails w argv = false /\ first_throw w argv = Some what) /\
  (snd (main w argv) = Hangs <->
   reaches_report w argv = true /\ labels_unreadable w = true) /\
  (snd (main w argv) = Exited 0 \/
   snd (main w argv) = Exited (-1) \/
   snd (main w argv) = Terminated std_out_of_range \/
   (exists what, snd (main w argv) = Terminated (cv_Exception what)) \/
   snd (main w argv) = Hangs).
Proof.
  destruct (main_status_characterised w argv) as (H1 & H2 & H3 & H4 & H5 & H6).
  split; [|split; [exact H1|split; [|split; [exact H2|split;
    [exact H4|split; [exact H5|exact H6]]]]]].
  - intros s Hs.
    destruct H6 as [H|[H|[H|[[what H]|H]]]]; rewrite H in Hs;
      try discriminate; injection Hs as <-; auto.
  - intros Hf. rewrite H1, reaches_report_true, Hf.
    destruct (load_fails w argv), (image_unreadable w argv); intuition congruence.
Qed.

Lemma C4_witness :
  snd (main world_no_labels []) = Exited (-1) <->
  load_fails world_no_labels [] = true \/
  image_unreadable world_no_labels [] = true \/
  labels_missing world_no_labels = true.
Proof.
  apply (C4_exit_status world_no_labels []). reflexivity.
Defined.

(** In [world_short_labels] none of the three failures occurs and the run
    is no success either: class 1 is looked up in a list of one label, and
    the process is terminated without a status of its own. *)
Example short_label_list_run :
  load_fails world_short_labels [] = false /\
  image_unreadable world_short_labels [] = false /\
  labels_missing world_short_labels = false /\
  snd (main world_short_labels []) = Terminated std_out_of_range.
Proof. repeat split. Qed.

(** In [world_pass_throws] a forward pass throws: the run is terminated by
    the exception in the fourth pass, and it never gets to
    the label file, which is missing. *)
Example throwing_pass_run :
  load_fails world_pass_throws [] = false /\
  image_unreadable world_pass_throws [] = false /\
  labels_missing world_pass_throws = true /\
  reaches_report world_pass_throws [] = false /\
  snd (main world_pass_throws [])
  = Terminated (cv_Exception "forward: layer failed") /\
  List.length (forward_outputs (fst (main world_pass_throws []))) = 3%nat /\
  existsb is_open (fst (main world_pass_throws [])) = false.
Proof. repeat split; vm_compute; reflexivity. Qed.

(** In [world_directory] synset_words.txt opens and cannot be read: the
    run does its eleven passes, opens the file, and the read loop never
    ends. *)
Example unreadable_label_file_run :
  reaches_report world_directory [] = true /\
  labels_missing world_directory = false /\
  labels_unreadable world_directory = true /\
  snd (main world_directory []) = Hangs /\
  List.length (forward_outputs (fst (main world_directory []))) = 11%nat /\
  last (fst (main world_directory [])) EvClose = EvOpen "synset_words.txt" true.
Proof. repeat split; vm_compute; reflexivity. Qed.

(** ** The segments of a trace *)

Section Segments.

Context {Net Img : Type}.
Variable w : World Net Img.

Lemma existsb_cycles_trace (p : event -> bool) :
  (forall blob name, p (EvSetInput blob name) = false) ->
  (forall name out, p (EvForward name out) = false) ->
  forall (n : nat) (net : Net) (blob : Mat),
    existsb p (cycles_trace w n net blob) = false.
Proof.
  intros H1 H2. induction n as [|n IH]; intros net blob; [reflexivity|].
  cbn [cycles_trace existsb]. now rewrite H1, H2, IH.
Qed.

Lemma filter_cycles_trace (p : event -> bool) :
  (forall blob name, p (EvSetInput blob name) = false) ->
  (forall name out, p (EvForward name out) = false) ->
  forall (n : nat) (net : Net) (blob : Mat),
    filter p (cycles_trace w n net blob) = [].
Proof.
  intros H1 H2. induction n as [|n IH]; intros net blob; [reflexivity|].
  cbn [cycles_trace filter]. now rewrite H1, H2, IH.
Qed.

Lemma existsb_is_open_cycles (n : nat) (net : Net) (blob : Mat) :
  existsb is_open (cycles_trace w n net blob) = false.
Proof. now apply existsb_cycles_trace. Qed.

Lemma load_events_head (argv : list string) :
  exists rest,
    load_events w argv
    = EvReadNet (proto_option w argv) (model_option w argv) :: rest /\
    couts rest = [] /\ forward_outputs rest = [] /\ input_blobs rest = [] /\
    existsb is_open rest = false /\ filter is_stdout rest = [] /\
    filter is_open rest = [] /\ filter is_close rest = [] /\
    filter is_model_load rest = [] /\ filter is_target rest = [] /\
    (load_fails w argv = true -> cerrs rest <> []).
Proof.
  destruct (load_events_cases w argv)
    as [(net & _ & Hl & ->)|[(what & _ & _ & Hl & ->)|(what & _ & _ & _ & ->)]];
    eexists; (split; [reflexivity|]); cbn; rewrite ?Hl;
    repeat split; auto; discriminate.
Qed.

Lemma help_events_quiet (argv : list string) :
  couts (help_events w argv) = [] /\ cerrs (help_events w argv) = [] /\
  forward_outputs (help_events w argv) = [] /\
  input_blobs (help_events w argv) = [] /\
  existsb is_open (help_events w argv) = false.
Proof. unfold help_events. destruct (help_option w argv); cbn; auto. Qed.

Lemma target_events_quiet (argv : list string) :
  couts (target_events w argv) = [] /\ cerrs (target_events w argv) = [] /\
  forward_outputs (target_events w argv) = [] /\
  input_blobs (target_events w argv) = [] /\
  existsb is_open (target_events w argv) = false.
Proof. unfold target_events. destruct (opencl_option w argv); cbn; auto. Qed.

Lemma load_events_quiet (argv : list string) :
  couts (load_events w argv) = [] /\
  forward_outputs (load_events w argv) = [] /\
  input_blobs (load_events w argv) = [] /\
  existsb is_open (load_events w argv) = false.
Proof.
  destruct (load_events_head argv) as (rest & -> & H1 & H2 & H3 & H4 & _). cbn. auto.
Qed.

(** What happens before the image is read neither writes to the standard
    output, nor runs a pass, nor opens a file. *)
Lemma prefix_quiet (argv : list string) :
  couts (help_events w argv ++ load_events w argv ++ target_events w argv)%list = [] /\
  forward_outputs (help_events w argv ++ load_events w argv ++ target_events w argv)%list
  = [] /\
  input_blobs (help_events w argv ++ load_events w argv ++ target_events w argv)%list
  = [] /\
  existsb is_open (help_events w argv ++ load_events w argv ++ target_events w argv)%list
  = false.
Proof.
  destruct (help_events_quiet argv) as (H1 & _ & H2 & H3 & H4).
  destruct (target_events_quiet argv) as (T1 & _ & T2 & T3 & T4).
  destruct (load_events_quiet argv) as (L1 & L2 & L3 & L4).
  rewrite !couts_app, !forward_outputs_app, !input_blobs_app, !existsb_app.
  rewrite H1, H2, H3, H4, T1, T2, T3, T4, L1, L2, L3, L4. cbn. auto.
Qed.

Lemma setup_events_quiet (argv : list string) :
  couts (setup_events w argv) = [] /\
  forward_outputs (setup_events w argv) = [] /\
  input_blobs (setup_events w argv) = [] /\
  existsb is_open (setup_events w argv) = false.
Proof.
  unfold setup_events.
  destruct (prefix_quiet argv) as (P1 & P2 & P3 & P4).
  rewrite !app_assoc.
  rewrite <- (app_assoc (help_events w argv)).
  rewrite couts_app, forward_outputs_app, input_blobs_app, existsb_app.
  rewrite P1, P2, P3, P4. cbn. auto.
Qed.

Lemma report_events_quiet (prob : Mat) :
  forward_outputs (events_of (report w prob)) = [] /\
  input_blobs (events_of (report w prob)) = [].
Proof.
  destruct (report_cases w prob)
    as [(_ & _ & ->)|[(_ & _ & _ & ->)|
       (_ & _ & content & classNames & _ & _ & [(label & _ & ->)|[_ ->]])]];
    cbn; auto.
Qed.

(** The passes of a run of [doDnn]: [k] completed ones, all on the tensor
    built from the image, and eleven exactly when the run gets to the
    report. *)
Lemma doDnn_passes (argv : list string) :
  exists k j : nat,
    forward_outputs (events_of (doDnn w argv))
    = forward_outputs (cycles_trace w k (net_in_use w argv) (input_blob w argv)) /\
    List.length (forward_outputs (events_of (doDnn w argv))) = k /\
    input_blobs (events_of (doDnn w argv)) = repeat (input_blob w argv) j /\
    (k <= j)%nat /\ (j <= S k)%nat /\ (j <= 11)%nat /\
    (k = 11%nat <-> reaches_report w argv = true) /\
    (reaches_report w argv = false ->
     existsb is_open (events_of (doDnn w argv)) = false) /\
    (reaches_inference w argv = false -> j = 0%nat).
Proof.
  destruct (prefix_quiet argv) as (_ & P2 & P3 & P4).
  destruct (setup_events_quiet argv) as (_ & S2 & S3 & S4).
  destruct (doDnn_cases w argv)
    as [[Hl E]|[(Hl & Hi & what & pre & Ee & Ef & Hp & E)|
       [(Hl & Hi & Ee & Ef & E)|[(Hl & Hi & Ee & what & k & Ef & Hk & E)|
        (Hl & Hi & Ee & Ef & E)]]]];
    rewrite E; cbn [events_of fst]; clear E.
  - exists 0%nat, 0%nat. unfold reaches_report, reaches_inference. rewrite Hl.
    destruct (help_events_quiet argv) as (_ & _ & H2 & H3 & H4).
    destruct (load_events_quiet argv) as (_ & L2 & L3 & L4).
    rewrite forward_outputs_app, input_blobs_app, existsb_app, H2, H3, H4, L2, L3, L4.
    cbn. repeat split; intros; try lia; try discriminate; try tauto.
  - exists 0%nat, 0%nat. unfold reaches_report, reaches_inference. rewrite Hl, Ef.
    rewrite !app_assoc, <- (app_assoc (help_events w argv)).
    rewrite forward_outputs_app, input_blobs_app, existsb_app, P2, P3, P4.
    destruct Hp as [->| ->]; cbn;
      repeat split; intros; try lia; try discriminate; try tauto.
  - exists 0%nat, 0%nat. unfold reaches_report, reaches_inference. rewrite Hl, Hi.
    rewrite !app_assoc, <- (app_assoc (help_events w argv)).
    rewrite forward_outputs_app, input_blobs_app, existsb_app, P2, P3, P4.
    cbn. repeat split; intros; try lia; try discriminate; try tauto.
  - exists k, (S k). unfold reaches_report, reaches_inference. rewrite Hl, Hi, Ef, Ee.
    destruct (forward_outputs_cycles_trace w k (net_in_use w argv) (input_blob w argv))
      as (C1 & C2 & _).
    rewrite !forward_outputs_app, !input_blobs_app, !existsb_app, S2, S3, S4, C2.
    rewrite existsb_is_open_cycles.
    cbn [app forward_outputs input_blobs flat_map existsb is_open orb].
    rewrite app_nil_r, C1.
    repeat split; intros; try lia; try discriminate; try tauto.
    rewrite <- (repeat_cons k). reflexivity.
  - exists 11%nat, 11%nat. unfold reaches_report, reaches_inference.
    rewrite Hl, Hi, Ef, Ee.
    destruct (forward_outputs_cycles_trace w 11 (net_in_use w argv) (input_blob w argv))
      as (C1 & C2 & _).
    destruct (report_events_quiet (last_prob w argv)) as (R1 & R2).
    rewrite !forward_outputs_app, !input_blobs_app, S2, S3, R1, R2, C2.
    cbn [app]. rewrite !app_nil_r, C1.
    repeat split; intros; try lia; try discriminate; try tauto.
Qed.

(** The eleventh forward pass of a run of [doDnn], when there is one, came
    after a successful load and read and eleven passes that all returned. *)
Lemma final_output_doDnn (argv : list string) (prob : Mat) :
  final_output (events_of (doDnn w argv)) = Some prob ->
  load_fails w argv = false /\ image_unreadable w argv = false /\
  first_throw w argv = None /\ prob = last_prob w argv.
Proof.
  unfold final_output. intros Hn.
  destruct (doDnn_passes argv) as (k & j & Hf & Hlen & _ & _ & _ & _ & Hk & _ & _).
  assert (Hlt : (10 < k)%nat).
  { rewrite <- Hlen. apply nth_error_Some. rewrite Hn. discriminate. }
  destruct (Nat.eq_dec k 11) as [->|Hne].
  - destruct Hk as [Hk _]. specialize (Hk eq_refl).
    apply reaches_report_true in Hk. destruct Hk as (Hl & Hi & Hft).
    repeat split; try assumption.
    rewrite Hf in Hn.
    destruct (forward_outputs_cycles_trace w 10 (net_in_use w argv) (input_blob w argv))
      as (_ & _ & H3).
    rewrite H3 in Hn. injection Hn as <-. reflexivity.
  - exfalso.
    destruct (doDnn_cases w argv)
      as [[Hl E]|[(Hl & Hi & what & pre & Ee & Ef & Hp & E)|
         [(Hl & Hi & Ee & Ef & E)|[(Hl & Hi & Ee & what & k' & Ef & Hk' & E)|
          (Hl & Hi & Ee & Ef & E)]]]].
    5: { apply Hne, Hk, reaches_report_true. auto. }
    all: rewrite E in Hlen; cbn [events_of fst] in Hlen.
    all: destruct (prefix_quiet argv) as (_ & P2 & _).
    all: destruct (setup_events_quiet argv) as (_ & S2 & _).
    + destruct (help_events_quiet argv) as (_ & _ & H2 & _).
      destruct (load_events_quiet argv) as (_ & L2 & _).
      rewrite forward_outputs_app, H2, L2 in Hlen. cbn in Hlen. lia.
    + rewrite !app_assoc, <- (app_assoc (help_events w argv)) in Hlen.
      rewrite forward_outputs_app, P2 in Hlen.
      destruct Hp as [->| ->]; cbn in Hlen; lia.
    + rewrite !app_assoc, <- (app_assoc (help_events w argv)) in Hlen.
      rewrite forward_outputs_app, P2 in Hlen. cbn in Hlen. lia.
    + destruct (forward_outputs_cycles_trace w k' (net_in_use w argv) (input_blob w argv))
        as (C1 & _).
      rewrite !forward_outputs_app, S2 in Hlen.
      cbn [app forward_outputs flat_map] in Hlen.
      rewrite app_nil_r, C1 in Hlen. lia.
Qed.

End Segments.

(** ** The label file is read last *)

(** C1, as the code has it.  With synset_words.txt missing: the file is
    opened last, so a run that gets to it has loaded the model and done the
    eleven forward passes before it reports the missing file and exits with
    -1; a run that ends before (failed model load, unreadable image, or an
    exception out of a library call) never opens the file.  The run exits
    with -1 unless such an exception terminates it. *)
Theorem C1_missing_label_file {Net Img : Type} (w : World Net Img)
  (argv : list string) :
  labels_missing w = true ->
  (reaches_report w argv = true ->
   fst (main w argv)
   = (setup_events w argv ++
      cycles_trace w 11 (net_in_use w argv) (input_blob w argv) ++
      [EvOpen "synset_words.txt" false;
       EvCerr (PStr "File with classes labels not found: ");
       EvCerr (PStr "synset_words.txt"); EvCerr PEndl])%list /\
   snd (main w argv) = Exited (-1) /\
   existsb is_model_load (setup_events w argv) = true /\
   List.length
     (forward_outputs (cycles_trace w 11 (net_in_use w argv) (input_blob w argv)))
   = 11%nat) /\
  (reaches_report w argv = false ->
   existsb is_open (fst (main w argv)) = false) /\
  (snd (main w argv) = Exited (-1) <->
   load_fails w argv = true \/ first_throw w argv = None) /\
  (snd (main w argv) = Exited (-1) \/
   exists what, snd (main w argv) = Terminated (cv_Exception what)).
Proof.
  intros Hm.
  destruct (main_status_characterised w argv) as (H1 & _ & _ & H4 & _ & _).
  assert (Hs : snd (main w argv) = Exited (-1) <->
               load_fails w argv = true \/ first_throw w argv = None).
  { rewrite H1, reaches_report_true, Hm.
    destruct (load_fails w argv) eqn:Hl; [tauto|].
    destruct (image_unreadable w argv) eqn:Hi.
    - destruct (doDnn_cases w argv)
        as [[Hl' _]|[(_ & Hi' & _)|[(_ & _ & _ & Ef & _)|[(_ & Hi' & _)|
           (_ & Hi' & _)]]]]; try congruence.
      rewrite Ef. tauto.
    - intuition congruence. }
  split; [|split; [|split; [exact Hs|]]].
  - intros Hr. rewrite main_events.
    pose proof Hr as Hr'. apply reaches_report_true in Hr'.
    destruct Hr' as (Hl & Hi & Hf).
    destruct (doDnn_cases w argv)
      as [[Hl' _]|[(_ & _ & what & pre & _ & Ef & _)|
         [(_ & Hi' & _)|[(_ & _ & _ & what & k & Ef & _)|
          (_ & _ & _ & _ & E)]]]]; try congruence.
    assert (Ho : open_ifstream w "synset_words.txt" = None).
    { unfold labels_missing in Hm.
      now destruct (open_ifstream w "synset_words.txt"). }
    rewrite E, (report_labels_missing w _ Ho). cbn [events_of fst].
    split; [reflexivity|]. split; [apply Hs; auto|]. split.
    + unfold setup_events. destruct (load_events_head w argv) as (rest & -> & _).
      rewrite existsb_app. cbn. apply orb_true_r.
    + apply (forward_outputs_cycles_trace w 11).
  - intros Hr. rewrite main_events.
    destruct (doDnn_passes w argv) as (k & j & _ & _ & _ & _ & _ & _ & _ & Ho & _).
    now apply Ho.
  - destruct (load_fails w argv) eqn:Hl; [left; apply Hs; auto|].
    destruct (first_throw w argv) as [what|] eqn:Hf; [|left; apply Hs; auto].
    right. exists what. apply H4. auto.
Qed.

Lemma C1_witness :
  fst (main world_no_labels [])
  = (setup_events world_no_labels [] ++
     cycles_trace world_no_labels 11 (net_in_use world_no_labels [])
                  (input_blob world_no_labels []) ++
     [EvOpen "synset_words.txt" false;
      EvCerr (PStr "File with classes labels not found: ");
      EvCerr (PStr "synset_words.txt"); EvCerr PEndl])%list /\
  snd (main world_no_labels []) = Exited (-1) /\
  existsb is_model_load (setup_events world_no_labels []) = true /\
  List.length
    (forward_outputs
       (cycles_trace world_no_labels 11 (net_in_use world_no_labels [])
                     (input_blob world_no_labels [])))
  = 11%nat.
Proof.
  apply (C1_missing_label_file world_no_labels []); reflexivity.
Defined.

(** C1 as stated does not hold.  In [world_no_labels] the label file is
    missing and the run loads the model and runs the eleven passes before it
    exits; in [world_no_model_no_labels] the label file is missing as well,
    and the run ends in the model-loading block: the file is never opened
    and its name appears in no message. *)
Lemma C1_counterexample :
  (labels_missing world_no_labels = true /\
   existsb is_model_load (fst (main world_no_labels [])) = true /\
   List.length (forward_outputs (fst (main world_no_labels []))) = 11%nat /\
   ~ (snd (main world_no_labels []) = Exited (-1) /\
      In (EvCerr (PStr "synset_words.txt")) (fst (main world_no_labels [])) /\
      existsb is_model_load (fst (main world_no_labels [])) = false /\
      forward_outputs (fst (main world_no_labels [])) = [])) /\
  (labels_missing world_no_model_no_labels = true /\
   existsb is_open (fst (main world_no_model_no_labels [])) = false /\
   ~ In (EvCerr (PStr "synset_words.txt"))
        (fst (main world_no_model_no_labels []))).
Proof.
  repeat split; try (vm_compute; reflexivity).
  - intros (_ & _ & H & _). vm_compute in H. discriminate.
  - vm_compute. intuition discriminate.
Qed.

(** ** The class lookup *)

(** C3, as the code has it.  When the class index is at or beyond the
    length of the loaded label list, the lookup [classNames.at(classId)]
    detects it: it throws [std::out_of_range], nothing catches the
    exception, and the process is terminated.  The failure is a defined
    one; the run is not undefined. *)
Theorem C3_lookup_out_of_range {Net Img : Type} (w : World Net Img)
  (argv : list string) (prob : Mat) (classNames : vector string) :
  final_output (fst (main w argv)) = Some prob ->
  result_of (readClassNames w "synset_words.txt") = Ret classNames ->
  Z.of_nat (List.length classNames) <= classId_of prob <= INT_MAX ->
  vector_at classNames (size_t_of_int (classId_of prob)) = Throw std_out_of_range /\
  result_of (doDnn w argv) = Throw std_out_of_range /\
  result_of (doDnn w argv) <> Undefined /\
  snd (main w argv) = Terminated std_out_of_range.
Proof.
  intros Hfin Hn Hk. rewrite main_events in Hfin.
  destruct (final_output_doDnn w _ _ Hfin) as (Hl & Hi & Hf & ->).
  assert (Hat : vector_at classNames (size_t_of_int (classId_of (last_prob w argv)))
                = Throw std_out_of_range).
  { apply vector_at_out_of_range. unfold size_t_of_int.
    rewrite Z.mod_small; [lia|].
    unfold INT_MAX, size_t_modulus in *. lia. }
  assert (Hr : snd (main w argv) = Terminated std_out_of_range).
  { apply (main_status_characterised w argv).
    repeat split; try assumption. exists classNames. auto. }
  assert (Hd : result_of (doDnn w argv) = Throw std_out_of_range).
  { rewrite main_status in Hr.
    destruct (result_of (doDnn w argv)); try discriminate.
    now injection Hr as ->. }
  repeat split; try assumption.
  rewrite Hd. discriminate.
Qed.

Lemma C3_witness :
  vector_at ["tench, Tinca tinca"]
            (size_t_of_int (classId_of (mk_Mat [1; 3] three_probs)))
  = Throw std_out_of_range /\
  result_of (doDnn world_short_labels []) = Throw std_out_of_range /\
  result_of (doDnn world_short_labels []) <> Undefined /\
  snd (main world_short_labels []) = Terminated std_out_of_range.
Proof.
  apply (C3_lookup_out_of_range world_short_labels [] (mk_Mat [1; 3] three_probs)
           ["tench, Tinca tinca"]).
  - reflexivity.
  - reflexivity.
  - vm_compute. split; discriminate.
Defined.

(** C3 as stated does not hold: in [world_short_labels] the class index, 1,
    equals the length of the label list, and the lookup is the checked
    [at], which throws, where an unchecked subscript would be undefined. *)
Lemma C3_counterexample :
  result_of (readClassNames world_short_labels "synset_words.txt")
  = Ret ["tench, Tinca tinca"] /\
  final_output (fst (main world_short_labels [])) = Some (mk_Mat [1; 3] three_probs) /\
  classId_of (mk_Mat [1; 3] three_probs) = 1 /\
  vector_subscript ["tench, Tinca tinca"] 1 = Undefined /\
  vector_at ["tench, Tinca tinca"] 1 = Throw std_out_of_range /\
  result_of (doDnn world_short_labels []) = Throw std_out_of_range /\
  result_of (doDnn world_short_labels []) <> Undefined.
Proof. repeat split; try reflexivity. vm_compute. discriminate. Qed.

(** ** Model loading *)

(** Every run starts with the usage text, if asked for, and the
    model-loading block. *)
Lemma doDnn_prefix {Net Img : Type} (w : World Net Img) (argv : list string) :
  exists post,
    events_of (doDnn w argv)
    = (help_events w argv ++ load_events w argv ++ post)%list /\
    (load_fails w argv = true -> post = []) /\
    (load_fails w argv = false ->
     post = events_of (classify w (runNet w) (image_option w argv)
                                (opencl_option w argv) (loaded_net w argv))).
Proof.
  unfold doDnn. destruct (load_fails w argv) eqn:Hl.
  - exists []. rewrite (doDnn_with_load_fails w _ _ Hl). cbn [events_of fst].
    rewrite app_nil_r. repeat split; auto; discriminate.
  - eexists. rewrite (doDnn_with_goes_on w _ _ Hl). cbn [events_of fst].
    repeat split; auto; discriminate.
Qed.

(** C5.  When [readNetFromCaffe] throws, the message of the exception is
    printed.  If the handle, still default-constructed, is empty, the two
    paths and the download hint follow and the process exits with -1,
    nothing else being done.  If it is not empty, the run goes on with that
    handle as it would with a loaded one: target selection, image reading,
    and from there either the image failure, or the eleven passes and the
    report, or the exception of a library call that throws. *)
Theorem C5_model_load_exception {Net Img : Type} (w : World Net Img)
  (argv : list string) (what : string) :
  readNetFromCaffe w (proto_option w argv) (model_option w argv) = inr what ->
  (exists rest,
      cerrs (fst (main w argv))
      = PStr "Exception: " :: PStr what :: PEndl :: rest) /\
  (Net_empty w (Net_default w) = true ->
   cerrs (fst (main w argv))
   = [PStr "Exception: "; PStr what; PEndl;
      PStr "Can't load network by using the following files: "; PEndl;
      PStr "prototxt:   "; PStr (proto_option w argv); PEndl;
      PStr "caffemodel: "; PStr (model_option w argv); PEndl;
      PStr "bvlc_googlenet.caffemodel can be downloaded here:"; PEndl;
      PStr "http://dl.caffe.berkeleyvision.org/bvlc_googlenet.caffemodel"; PEndl] /\
   snd (main w argv) = Exited (-1) /\
   fst (main w argv) = (help_events w argv ++ load_events w argv)%list /\
   List.length (load_events w argv) = 16%nat) /\
  (Net_empty w (Net_default w) = false ->
   load_events w argv
   = [EvReadNet (proto_option w argv) (model_option w argv);
      EvCerr (PStr "Exception: "); EvCerr (PStr what); EvCerr PEndl] /\
   net_in_use w argv
   = (if opencl_option w argv
      then setPreferableTarget w (Net_default w) DNN_TARGET_OPENCL
      else Net_default w) /\
   doDnn w argv
   = ((help_events w argv ++ load_events w argv ++
       events_of (classify w (runNet w) (image_option w argv)
                           (opencl_option w argv) (Net_default w)))%list,
      result_of (classify w (runNet w) (image_option w argv)
                          (opencl_option w argv) (Net_default w))) /\
   (image_unreadable w argv = true ->
    doDnn w argv
    = ((help_events w argv ++ load_events w argv ++ target_events w argv ++
        [EvImread (image_option w argv);
         EvCerr (PStr "Can't read image from the file: ");
         EvCerr (PStr (image_option w argv)); EvCerr PEndl])%list,
       Exit (-1))) /\
   (image_unreadable w argv = false -> first_throw w argv = None ->
    doDnn w argv
    = ((setup_events w argv ++
        cycles_trace w 11 (net_in_use w argv) (input_blob w argv) ++
        events_of (report w (last_prob w argv)))%list,
       result_of (report w (last_prob w argv)))) /\
   (forall what', first_throw w argv = Some what' ->
                  result_of (doDnn w argv) = Throw (cv_Exception what'))).
Proof.
  intros Hthrow.
  destruct (help_events_quiet w argv) as (_ & Hh & _).
  destruct (doDnn_prefix w argv) as (post & Hpre & Hp1 & Hp2).
  destruct (load_events_cases w argv)
    as [(net & E & _)|[(what' & E & He & Hl & Hle)|(what' & E & He & Hl & Hle)]];
    rewrite E in Hthrow; [discriminate| |]; injection Hthrow as ->;
    rewrite main_events, main_status.
  - (* the handle is not empty *)
    split; [|split; [congruence|intros _]].
    + rewrite Hpre, !cerrs_app, Hh, Hle. cbn. eauto.
    + assert (Hn : loaded_net w argv = Net_default w)
        by (unfold loaded_net; now rewrite E).
      split; [assumption|]. split.
      { unfold net_in_use. now rewrite E. }
      split.
      { unfold doDnn. rewrite (doDnn_with_goes_on w _ _ Hl). now rewrite Hn. }
      destruct (doDnn_cases w argv)
        as [[Hl' _]|[(_ & Hi & wh & pre & _ & Ef & _ & Ed)|
           [(_ & Hi & _ & Ef & Ed)|[(_ & Hi & _ & wh & k & Ef & _ & Ed)|
            (_ & Hi & _ & Ef & Ed)]]]]; [congruence| | | |];
        rewrite Ed, Hi, Ef; cbn [result_of snd];
        repeat split; intros; try discriminate; try congruence.
  - (* the handle is empty *)
    unfold doDnn. rewrite (doDnn_with_load_fails w _ _ Hl).
    cbn [events_of result_of fst snd]. rewrite cerrs_app, Hh, Hle.
    split; [cbn; eauto|]. split; [intros _|congruence].
    repeat split.
Qed.

Lemma C5_witness :
  (cerrs (fst (main world_no_model []))
   = [PStr "Exception: "; PStr "cannot open bvlc_googlenet.prototxt"; PEndl;
      PStr "Can't load network by using the following files: "; PEndl;
      PStr "prototxt:   "; PStr "bvlc_googlenet.prototxt"; PEndl;
      PStr "caffemodel: "; PStr "bvlc_googlenet.caffemodel"; PEndl;
      PStr "bvlc_googlenet.caffemodel can be downloaded here:"; PEndl;
      PStr "http://dl.caffe.berkeleyvision.org/bvlc_googlenet.caffemodel"; PEndl] /\
   snd (main world_no_model []) = Exited (-1)) /\
  (doDnn world_tolerant []
   = ((setup_events world_tolerant [] ++
       cycles_trace world_tolerant 11 (net_in_use world_tolerant [])
                    (input_blob world_tolerant []) ++
       events_of (report world_tolerant (last_prob world_tolerant [])))%list,
      result_of (report world_tolerant (last_prob world_tolerant [])))).
Proof.
  split.
  - destruct (C5_model_load_exception world_no_model []
                "cannot open bvlc_googlenet.prototxt" eq_refl)
      as (_ & H & _).
    destruct (H eq_refl) as (H1 & H2 & _). split; [exact H1|exact H2].
  - destruct (C5_model_load_exception world_tolerant []
                "cannot open bvlc_googlenet.prototxt" eq_refl)
      as (_ & _ & H).
    destruct (H eq_refl) as (_ & _ & _ & _ & H4 & _). exact (H4 eq_refl eq_refl).
Defined.

(** In [world_tolerant] the exception is printed and the run ends well. *)
Example tolerant_run :
  cerrs (fst (main world_tolerant []))
  = [PStr "Exception: "; PStr "cannot open bvlc_googlenet.prototxt"; PEndl] /\
  snd (main world_tolerant []) = Exited 0.
Proof. split; reflexivity. Qed.

(** ** The repeated forward pass *)

(** C7.  The inference step runs the set-input/forward cycle eleven times,
    once and then ten more, each time on the same tensor, and returns the
    output of the last pass, whatever the network: the outputs of the ten
    passes before are dropped.  (If a pass throws, the step ends there with
    that exception.)  For a deterministic network the standard output, the
    error output and the result of the program are those of the program
    that runs the cycle once. *)
Theorem C7_repetition_is_idle {Net Img : Type} (w : World Net Img)
  (argv : list string) :
  (forall (net : Net) (blob : Mat),
      cycles_throw w 11 net blob = None ->
      events_of (runNet w net blob) = cycles_trace w 11 net blob /\
      input_blobs (events_of (runNet w net blob)) = repeat blob 11 /\
      List.length (forward_outputs (events_of (runNet w net blob))) = 11%nat /\
      List.length (forward_outputs (events_of (runNet_once w net blob))) = 1%nat /\
      result_of (runNet w net blob) = Ret (output w (net_after w 10 net blob) blob) /\
      final_output (events_of (runNet w net blob))
      = Some (output w (net_after w 10 net blob) blob) /\
      result_of (runNet_once w net blob) = Ret (output w net blob)) /\
  (forall (net : Net) (blob : Mat) (what : string),
      cycles_throw w 11 net blob = Some what ->
      result_of (runNet w net blob) = Throw (cv_Exception what) /\
      exists k, (k < 11)%nat /\
        events_of (runNet w net blob)
        = (cycles_trace w k net blob ++ [EvSetInput blob "data"])%list) /\
  (deterministic w ->
   (forall (net : Net) (blob : Mat),
       result_of (runNet w net blob) = result_of (runNet_once w net blob)) /\
   couts (events_of (doDnn w argv)) = couts (events_of (doDnn_once w argv)) /\
   cerrs (events_of (doDnn w argv)) = cerrs (events_of (doDnn_once w argv)) /\
   result_of (doDnn w argv) = result_of (doDnn_once w argv)).
Proof.
  split; [|split].
  - intros net blob Hc. rewrite (runNet_returns w _ _ Hc).
    assert (H1 : cycle_throws w net blob = None).
    { change 11%nat with (S 10) in Hc. cbn [cycles_throw] in Hc.
      now destruct (cycle_throws w net blob). }
    rewrite (runNet_once_returns w _ _ H1). cbn [events_of result_of fst snd].
    destruct (forward_outputs_cycles_trace w 11 net blob) as (F1 & F2 & _).
    destruct (forward_outputs_cycles_trace w 10 net blob) as (_ & _ & F3).
    repeat split; assumption.
  - intros net blob what Hc.
    destruct (runNet_thrown w _ _ _ Hc) as (k & Hk & _ & _ & ->).
    cbn [events_of result_of fst snd]. split; [reflexivity|]. now exists k.
  - intros Hdet.
    assert (Hrun : forall net blob,
               (exists what,
                   runNet w net blob
                   = ([EvSetInput blob "data"], Throw (cv_Exception what)) /\
                   runNet_once w net blob
                   = ([EvSetInput blob "data"], Throw (cv_Exception what))) \/
               (runNet w net blob = (cycles_trace w 11 net blob, Ret (output w net blob)) /\
                runNet_once w net blob
                = (cycles_trace w 1 net blob, Ret (output w net blob)))).
    { intros net blob. destruct (cycle_throws w net blob) as [what|] eqn:E.
      - left. exists what. split; [|now apply runNet_once_thrown].
        unfold runNet. now rewrite (cycle_thrown w _ _ _ E).
      - right. destruct (deterministic_passes w Hdet 11 _ _ E) as (H11 & _).
        destruct (deterministic_passes w Hdet 10 _ _ E) as (_ & _ & H10).
        rewrite (runNet_returns w _ _ H11), H10.
        split; [reflexivity|now apply runNet_once_returns]. }
    split.
    { intros net blob.
      destruct (Hrun net blob) as [(what & -> & ->)|[-> ->]]; reflexivity. }
    unfold doDnn, doDnn_once.
    destruct (doDnn_with_cases w argv)
      as [[_ E]|[(_ & _ & what & _ & E)|[(_ & _ & _ & E)|(_ & _ & _ & E)]]];
      rewrite !E; try (repeat split; reflexivity).
    cbn [events_of result_of fst snd].
    destruct (Hrun (net_in_use w argv) (input_blob w argv))
      as [(what & -> & ->)|[-> ->]]; [repeat split; reflexivity|].
    rewrite !bind_Ret. cbn [events_of result_of fst snd].
    rewrite !couts_app, !cerrs_app.
    destruct (couts_cycles_trace w 11 (net_in_use w argv) (input_blob w argv))
      as [-> ->].
    destruct (couts_cycles_trace w 1 (net_in_use w argv) (input_blob w argv))
      as [-> ->].
    auto.
Qed.

Lemma C7_witness :
  result_of (runNet world_stateful 1%nat (mk_Mat [1; 3; 224; 224] []))
  = Ret (output world_stateful
                (net_after world_stateful 10 1%nat (mk_Mat [1; 3; 224; 224] []))
                (mk_Mat [1; 3; 224; 224] [])) /\
  couts (events_of (doDnn world_ok [])) = couts (events_of (doDnn_once world_ok [])) /\
  cerrs (events_of (doDnn world_ok [])) = cerrs (events_of (doDnn_once world_ok [])) /\
  result_of (doDnn world_ok []) = result_of (doDnn_once world_ok []).
Proof.
  split.
  - destruct (C7_repetition_is_idle world_stateful []) as (H & _).
    apply (H 1%nat (mk_Mat [1; 3; 224; 224] []) eq_refl).
  - destruct (C7_repetition_is_idle world_ok []) as (_ & _ & H).
    apply H. intros net blob _. split; reflexivity.
Defined.

(** Determinism is needed, and it is the last output that is kept: the
    network of [world_stateful] answers differently on its first pass; the
    inference step returns the output of the eleventh pass, not that of the
    first, and the two programs report different classes. *)
Example stateful_network_differs :
  result_of (runNet world_stateful 1%nat (mk_Mat [1; 3; 224; 224] []))
  <> Ret (output world_stateful 1%nat (mk_Mat [1; 3; 224; 224] [])) /\
  couts (events_of (doDnn world_stateful []))
  <> couts (events_of (doDnn_once world_stateful [])).
Proof. repeat split; try reflexivity; vm_compute; discriminate. Qed.

(** ** The report *)

Lemma nonempty_lines_bound (s : string) :
  (List.length (filter nonempty (lines s)) <= String.length s)%nat.
Proof.
  induction s as [|c s IH]; cbn [lines].
  - cbn. lia.
  - destruct (Ascii.eqb c newline).
    + cbn. lia.
    + destruct (lines s) as [|l ls]; cbn in *; [lia|].
      destruct (nonempty l); cbn in *; lia.
Qed.

Lemma labels_count_bound (s : string) :
  Z.of_nat (List.length (labels_of_lines (lines s))) <= size s.
Proof.
  unfold labels_of_lines, size. rewrite length_map.
  pose proof (nonempty_lines_bound s). lia.
Qed.

(** C8.  When a run reaches its last forward pass, with output [prob] (so
    the model was loaded and the image decoded), [prob] has at least one
    element and the label file holds at least as many labels as [prob] has
    elements, the program inserts into [std::cout] exactly
    [Best class: #k 'label'] and [Probability: p%], each followed by [endl],
    and returns: [k] is the index found by the scan, an index of [prob] no
    element of which exceeds the element at [k] (and the first such index
    when no element is a NaN), [label] is entry [k] of the label list, and
    [p] is that element times 100.  (The usage text that the parser prints
    under [--help] is its own event, not an insertion of the program.) *)
Theorem C8_end_to_end {Net Img : Type} (w : World Net Img)
  (argv : list string) (prob : Mat) (content : string) :
  final_output (fst (main w argv)) = Some prob ->
  elems prob <> [] ->
  file_contents w "synset_words.txt" = Some content ->
  size content < size_t_modulus ->
  (List.length (elems prob) <= List.length (labels_of_lines (lines content)))%nat ->
  exists (k : Z) (m : double) (label : string),
    k = snd (max_scan (hd m (elems prob)) 0 1 (tl (elems prob))) /\
    max_at (elems prob) k m /\
    (no_nan (elems prob) -> first_at (elems prob) k m) /\
    nth_error (labels_of_lines (lines content)) (Z.to_nat k) = Some label /\
    couts (fst (main w argv))
    = [PStr "Best class: #"; PInt k; PStr " '"; PStr label; PStr "'"; PEndl;
       PStr "Probability: "; PDouble (dmul m (double_of_Z 100)); PStr "%"; PEndl] /\
    snd (main w argv) = Exited 0.
Proof.
  intros Hfin Hne Hf Hsz Hlen. rewrite main_events in Hfin.
  destruct (final_output_doDnn w _ _ Hfin) as (Hl & Hi & Hft & Hp).
  destruct (minMaxLoc_row prob Hne) as (Hmax & _ & Hfirst).
  fold (classId_of prob) (classProb_of prob) in Hmax, Hfirst.
  pose proof (labels_count_bound content) as Hb.
  assert (Hk : 0 <= classId_of prob
               < Z.of_nat (List.length (labels_of_lines (lines content))))
    by (destruct Hmax as (Hk & _); lia).
  assert (Hmod : size_t_of_int (classId_of prob) = classId_of prob)
    by (unfold size_t_of_int; apply Z.mod_small; lia).
  destruct (vector_at_in_range (labels_of_lines (lines content)) _ Hk)
    as (label & Hnth & Hat).
  rewrite <- Hmod in Hat.
  pose proof (report_found w prob _ _ _ (readClassNames_opened w _ _ Hf Hsz) Hat)
    as Hr.
  exists (classId_of prob), (classProb_of prob), label.
  assert (Hrun : doDnn w argv
                 = ((setup_events w argv ++
                     cycles_trace w 11 (net_in_use w argv) (input_blob w argv) ++
                     events_of (report w (last_prob w argv)))%list,
                    result_of (report w (last_prob w argv)))).
  { destruct (doDnn_cases w argv)
      as [[Hl' _]|[(_ & _ & wh & pre & _ & Ef & _)|
         [(_ & Hi' & _)|[(_ & _ & _ & wh & k & Ef & _)|
          (_ & _ & _ & _ & E)]]]]; congruence. }
  rewrite main_events, main_status, Hrun, <- Hp, Hr.
  cbn [events_of result_of fst snd].
  destruct (setup_events_quiet w argv) as (Hs & _).
  destruct (couts_cycles_trace w 11 (net_in_use w argv) (input_blob w argv))
    as [Hc _].
  rewrite !couts_app, Hs, Hc.
  repeat split; try assumption; try apply Hmax.
  unfold classId_of, minMaxLoc, reshape_1_1, cols. cbn [elems dims nth].
  destruct (elems prob) as [|v l] eqn:Ev; [congruence|].
  cbn [hd tl]. destruct (max_scan v 0 1 l) as [best i] eqn:Es. cbn [snd x].
  assert (Hi' : 0 <= i < Z.of_nat (List.length (v :: l))).
  { pose proof (max_scan_inv l [v] v 0 1 eq_refl) as H.
    rewrite Es in H. cbn [fst snd app] in H. apply H.
    - repeat split; cbn; try lia. intros e [<-|[]]. apply dlt_irrefl.
    - intros _ j e Hj. cbn in Hj. lia. }
  rewrite Z.mod_small by lia. reflexivity.
Qed.

Lemma C8_witness :
  exists (k : Z) (m : double) (label : string),
    k = snd (max_scan (hd m three_probs) 0 1 (tl three_probs)) /\
    max_at three_probs k m /\
    (no_nan three_probs -> first_at three_probs k m) /\
    nth_error (labels_of_lines (lines three_labels)) (Z.to_nat k) = Some label /\
    couts (fst (main world_ok []))
    = [PStr "Best class: #"; PInt k; PStr " '"; PStr label; PStr "'"; PEndl;
       PStr "Probability: "; PDouble (dmul m (double_of_Z 100)); PStr "%"; PEndl] /\
    snd (main world_ok []) = Exited 0.
Proof.
  apply (C8_end_to_end world_ok [] (mk_Mat [1; 3] three_probs) three_labels).
  - reflexivity.
  - discriminate.
  - reflexivity.
  - vm_compute. reflexivity.
  - vm_compute. lia.
Defined.

(** The run of [world_ok]: class 1 with probability 0.625, printed as
    62.5. *)
Example world_ok_output :
  couts (fst (main world_ok []))
  = [PStr "Best class: #"; PInt 1; PStr " '";
     PStr "goldfish, Carassius auratus"; PStr "'"; PEndl;
     PStr "Probability: "; PDouble (dyadic 125 (-1)); PStr "%"; PEndl] /\
  snd (main world_ok []) = Exited 0.
Proof. split; reflexivity. Qed.

(** ** The input tensor *)

Lemma Forall_tensor_cycles {Net Img : Type} (w : World Net Img) (n : nat) :
  forall (net : Net) (blob : Mat),
    Forall (tensor_event_ok blob) (cycles_trace w n net blob) /\
    Forall tensor_shape_ok (cycles_trace w n net blob).
Proof.
  induction n as [|n IH]; intros net blob; cbn [cycles_trace].
  - split; constructor.
  - destruct (IH (next_net w net blob) blob). split; repeat constructor; assumption.
Qed.

Lemma Forall_tensor_front {Net Img : Type} (w : World Net Img)
  (argv : list string) (blob : Mat) :
  Forall (tensor_event_ok blob)
         (help_events w argv ++ load_events w argv ++ target_events w argv) /\
  Forall tensor_shape_ok
         (help_events w argv ++ load_events w argv ++ target_events w argv).
Proof.
  rewrite !Forall_app. repeat split.
  1, 4: unfold help_events; destruct (help_option w argv); repeat constructor.
  1, 3: destruct (load_events_cases w argv)
      as [(net & _ & _ & ->)|[(what & _ & _ & _ & ->)|(what & _ & _ & _ & ->)]];
      repeat constructor.
  all: unfold target_events; destruct (opencl_option w argv); repeat constructor.
Qed.

Lemma Forall_tensor_report {Net Img : Type} (w : World Net Img)
  (prob blob : Mat) :
  Forall (tensor_event_ok blob) (events_of (report w prob)) /\
  Forall tensor_shape_ok (events_of (report w prob)).
Proof.
  destruct (report_cases w prob)
    as [(_ & _ & ->)|[(_ & _ & _ & ->)|
       (_ & _ & content & classNames & _ & _ & [(label & _ & ->)|[_ ->]])]];
    split; repeat constructor.
Qed.

(** The tensor built from an image that was read and is not empty has
    shape 1 x 3 x 224 x 224, [blobFromImage] and [imread] being as
    documented. *)
Lemma input_blob_dims {Net Img : Type} (w : World Net Img) (argv : list string) :
  blobFromImage_shape w -> imread_color w ->
  early_throw w argv = None -> image_unreadable w argv = false ->
  dims (input_blob w argv) = [1; 3; 224; 224].
Proof.
  intros Hshape Hcolor He Hi. unfold input_blob. rewrite Hshape, Hcolor; [reflexivity|].
  revert He Hi. unfold early_throw, image_unreadable.
  destruct (target_throws w argv); [discriminate|].
  destruct (imread_throws w (image_option w argv)); [discriminate|].
  now intros _ ->.
Qed.

(** C9.  Whatever the command line, every construction of the input tensor
    in a run uses scale factor 1.0, size 224 x 224, mean (104, 117, 123) and
    no channel swap, every tensor bound to the network is that one, under
    the name "data", and, [blobFromImage] and [imread] being as documented,
    every tensor constructed has shape 1 x 3 x 224 x 224.  A run whose model
    loads, whose image is read and in which no library call throws does
    construct it, and binds it eleven times. *)
Theorem C9_fixed_tensor_parameters {Net Img : Type} (w : World Net Img)
  (argv : list string) :
  blobFromImage_shape w ->
  imread_color w ->
  Forall (tensor_event_ok (input_blob w argv)) (fst (main w argv)) /\
  Forall tensor_shape_ok (fst (main w argv)) /\
  (load_fails w argv = false -> image_unreadable w argv = false ->
   first_throw w argv = None ->
   In (EvBlobFromImage (double_of_Z 1) (mk_Size 224 224) (Scalar3 104 117 123) false
                       (input_blob w argv))
      (fst (main w argv)) /\
   input_blobs (fst (main w argv)) = repeat (input_blob w argv) 11 /\
   dims (input_blob w argv) = [1; 3; 224; 224]).
Proof.
  intros Hshape Hcolor. rewrite main_events.
  destruct (Forall_tensor_front w argv (input_blob w argv)) as (Hfront & Hfront').
  rewrite !Forall_app in Hfront, Hfront'.
  destruct Hfront as (Hh & Hld & Ht). destruct Hfront' as (Hh' & Hld' & Ht').
  destruct (doDnn_cases w argv)
    as [[Hl E]|[(Hl & Hi & what & pre & Ee & Ef & Hp & E)|
       [(Hl & Hi & Ee & Ef & E)|[(Hl & Hi & Ee & what & k & Ef & Hk & E)|
        (Hl & Hi & Ee & Ef & E)]]]];
    rewrite E; cbn [events_of fst]; clear E.
  - split; [|split; [|congruence]]; rewrite Forall_app; auto.
  - split; [|split; [|congruence]]; rewrite !Forall_app;
      destruct Hp as [->| ->]; repeat split; auto; repeat constructor.
  - split; [|split; [|congruence]]; rewrite !Forall_app;
      repeat split; auto; repeat constructor.
  - pose proof (input_blob_dims w argv Hshape Hcolor Ee Hi) as Hd.
    destruct (Forall_tensor_cycles w k (net_in_use w argv) (input_blob w argv))
      as (Hc & Hc').
    unfold setup_events.
    split; [|split; [|congruence]]; rewrite !Forall_app;
      repeat split; auto; repeat constructor; assumption.
  - pose proof (input_blob_dims w argv Hshape Hcolor Ee Hi) as Hd.
    destruct (Forall_tensor_cycles w 11 (net_in_use w argv) (input_blob w argv))
      as (Hc & Hc').
    destruct (Forall_tensor_report w (last_prob w argv) (input_blob w argv))
      as (Hr & Hr').
    split; [|split; [|intros _ _ _; repeat split]].
    + unfold setup_events. rewrite !Forall_app.
      repeat split; auto; repeat constructor; assumption.
    + unfold setup_events. rewrite !Forall_app.
      repeat split; auto; repeat constructor; assumption.
    + unfold setup_events. rewrite !in_app_iff. left. right. right. right.
      cbn. auto.
    + destruct (setup_events_quiet w argv) as (_ & _ & H1 & _).
      destruct (report_events_quiet w (last_prob w argv)) as (_ & H4).
      destruct (forward_outputs_cycles_trace w 11 (net_in_use w argv)
                                             (input_blob w argv)) as (_ & H5 & _).
      rewrite !input_blobs_app, H1, H4, H5, app_nil_r. reflexivity.
    + exact Hd.
Qed.

Lemma C9_witness :
  Forall (tensor_event_ok (input_blob world_ok [])) (fst (main world_ok [])) /\
  Forall tensor_shape_ok (fst (main world_ok [])) /\
  (load_fails world_ok [] = false -> image_unreadable world_ok [] = false ->
   first_throw world_ok [] = None ->
   In (EvBlobFromImage (double_of_Z 1) (mk_Size 224 224) (Scalar3 104 117 123) false
                       (input_blob world_ok []))
      (fst (main world_ok [])) /\
   input_blobs (fst (main world_ok [])) = repeat (input_blob world_ok []) 11 /\
   dims (input_blob world_ok []) = [1; 3; 224; 224]).
Proof.
  apply (C9_fixed_tensor_parameters world_ok []).
  - intros img scalefactor sz mean swapRB. reflexivity.
  - intros filename _. reflexivity.
Defined.

(** The constants as doubles: 1.0, and 104, 117, 123, 0. *)
Example tensor_constants :
  double_of_Z 1 = S754_finite false 4503599627370496 (-52) /\
  Scalar3 104 117 123
  = mk_Scalar (dyadic 104 0) (dyadic 117 0) (dyadic 123 0) (S754_zero false).
Proof. split; reflexivity. Qed.

(** * Further properties of the label loader *)

Section LoaderMore.

Context {Net Img : Type}.
Variable w : World Net Img.

(** Whatever the file holds, the loop ends with one more entry per
    non-empty line, when the file can be read to its end. *)
Lemma readLoop_count (fuel : nat) : forall (s : string) (acc : vector string),
  (List.length (lines s) < fuel)%nat ->
  exists classNames,
    readLoop fuel (mk_ifstream s false false false false) acc = Ret classNames /\
    List.length classNames
    = (List.length acc + List.length (filter nonempty (lines s)))%nat.
Proof.
  induction fuel as [|fuel IH]; intros s acc Hfuel; [lia|].
  cbn [readLoop eofbit]. unfold getline.
  cbn [eofbit failbit badbit read_error pending orb].
  pose proof (read_line_lines s) as Hl.
  destruct (read_line s) as [l [rest|]]; rewrite Hl in *;
    cbn [List.length filter] in *; rewrite nonempty_size.
  - destruct (nonempty l).
    + destruct (substr_find_returns l) as [label ->].
      destruct (IH rest (push_back acc label)) as (v & -> & Hv); [lia|].
      exists v. split; [reflexivity|].
      rewrite Hv. unfold push_back. rewrite length_app. cbn. lia.
    + apply IH. lia.
  - destruct fuel as [|fuel']; [lia|].
    destruct (nonempty l).
    + destruct (substr_find_returns l) as [label ->]. cbn [readLoop eofbit].
      eexists. split; [reflexivity|].
      unfold push_back. rewrite length_app. cbn. lia.
    + cbn [readLoop eofbit]. eexists. split; [reflexivity|]. cbn. lia.
Qed.

(** X1.  [readClassNames] returns on every file that opens and can be read
    to its end, whatever its content and size: the loop ends, the position
    handed to [substr] is never past the end of the line, so nothing is
    thrown, the stream is closed, and the list has exactly one entry per
    non-empty line. *)
Theorem readClassNames_total (filename content : string) :
  file_contents w filename = Some content ->
  exists classNames,
    readClassNames w filename = ([EvOpen filename true; EvClose], Ret classNames) /\
    List.length classNames = List.length (filter nonempty (lines content)) /\
    (List.length classNames <= String.length content)%nat.
Proof.
  intros Hf. unfold readClassNames, open_ifstream. rewrite Hf. cbn [pending].
  destruct (readLoop_count (String.length content + 2) content [])
    as (classNames & Hr & Hn).
  - pose proof (lines_length content). lia.
  - exists classNames. cbn. rewrite Hr. repeat split.
    + exact Hn.
    + rewrite Hn. apply nonempty_lines_bound.
Qed.

(** X12.  On a file that opens and then fails to read (a directory, a
    failing device) [readClassNames] never returns: the stream gets
    [badbit] and never [eofbit], so the loop goes on however many
    iterations it is given, and the stream is never closed. *)
Theorem read_error_never_ends (filename data : string) :
  file_contents w filename = None ->
  read_error_after w filename = Some data ->
  open_ifstream w filename = Some (mk_ifstream data true false false false) /\
  (forall (fuel : nat) (acc : vector string),
      readLoop fuel (mk_ifstream data true false false false) acc = Diverge) /\
  readClassNames w filename = ([EvOpen filename true], Diverge) /\
  filter is_close (events_of (readClassNames w filename)) = [].
Proof.
  intros Hf Hr. split; [|split; [|split]].
  - unfold open_ifstream. now rewrite Hf, Hr.
  - intros fuel acc. apply readLoop_stuck. split; cbn; auto.
  - now apply (readClassNames_read_error w filename data).
  - now rewrite (readClassNames_read_error w filename data Hf Hr).
Qed.

End LoaderMore.

Lemma readClassNames_total_witness :
  exists classNames,
    readClassNames world_plain_line "synset_words.txt"
    = ([EvOpen "synset_words.txt" true; EvClose], Ret classNames) /\
    List.length classNames
    = List.length (filter nonempty
                     (lines ("n01440764 tench" ++ nl ++ nl ++ "shark" ++ nl))) /\
    (List.length classNames
     <= String.length ("n01440764 tench" ++ nl ++ nl ++ "shark" ++ nl))%nat.
Proof.
  apply (readClassNames_total world_plain_line "synset_words.txt"
           ("n01440764 tench" ++ nl ++ nl ++ "shark" ++ nl)).
  reflexivity.
Defined.

Lemma read_error_never_ends_witness :
  readClassNames world_directory "synset_words.txt"
  = ([EvOpen "synset_words.txt" true], Diverge).
Proof.
  apply (read_error_never_ends world_directory "synset_words.txt" EmptyString);
    reflexivity.
Defined.

Lemma size_append (a b : string) : size (a ++ b) = size a + size b.
Proof.
  induction a as [|c a IH]; cbn [append].
  - unfold size. cbn. lia.
  - rewrite !size_String, IH. lia.
Qed.

(** The lines of two texts joined by a newline are the lines of the first
    followed by the lines of the second. *)
Lemma lines_join (a b : string) :
  lines (a ++ String newline b) = (lines a ++ lines b)%list.
Proof.
  induction a as [|c a IH]; cbn [append lines].
  - now rewrite Ascii.eqb_refl.
  - destruct (Ascii.eqb c newline).
    + now rewrite IH.
    + rewrite IH. pose proof (lines_length a).
      destruct (lines a) as [|l ls]; cbn in *; [lia|reflexivity].
Qed.

(** X2.  Loading composes with concatenation: the labels of two files
    joined by a newline are the labels of the first followed by the labels
    of the second.  In particular a newline added at the end of a file
    changes nothing. *)
Theorem readClassNames_concat {Net Img : Type} (w : World Net Img)
  (f1 f2 f12 c1 c2 : string) :
  file_contents w f1 = Some c1 ->
  file_contents w f2 = Some c2 ->
  file_contents w f12 = Some (c1 ++ String newline c2) ->
  size (c1 ++ String newline c2) < size_t_modulus ->
  exists l1 l2,
    result_of (readClassNames w f1) = Ret l1 /\
    result_of (readClassNames w f2) = Ret l2 /\
    result_of (readClassNames w f12) = Ret (l1 ++ l2)%list /\
    (c2 = EmptyString -> l2 = [] /\
     result_of (readClassNames w f12) = result_of (readClassNames w f1)).
Proof.
  intros H1 H2 H12 Hsz.
  assert (Hs : size c1 < size_t_modulus /\ size c2 < size_t_modulus).
  { rewrite size_append, size_String in Hsz.
    pose proof (size_nonneg c1). pose proof (size_nonneg c2). lia. }
  destruct Hs as [Hs1 Hs2].
  exists (labels_of_lines (lines c1)), (labels_of_lines (lines c2)).
  rewrite (readClassNames_opened w _ _ H1 Hs1), (readClassNames_opened w _ _ H2 Hs2),
    (readClassNames_opened w _ _ H12 Hsz).
  cbn [result_of snd]. rewrite lines_join, labels_of_lines_app.
  split; [reflexivity|]. split; [reflexivity|]. split; [reflexivity|].
  intros ->. cbn. now rewrite app_nil_r.
Qed.

Lemma readClassNames_concat_witness :
  exists l1 l2,
    result_of (readClassNames world_two_files "a.txt") = Ret l1 /\
    result_of (readClassNames world_two_files "b.txt") = Ret l2 /\
    result_of (readClassNames world_two_files "ab.txt") = Ret (l1 ++ l2)%list /\
    (("3 emu" ++ nl)%string = EmptyString -> l2 = [] /\
     result_of (readClassNames world_two_files "ab.txt")
     = result_of (readClassNames world_two_files "a.txt")).
Proof.
  apply (readClassNames_concat world_two_files "a.txt" "b.txt" "ab.txt"
           ("1 cat" ++ nl ++ "2 dog") ("3 emu" ++ nl)).
  - reflexivity.
  - reflexivity.
  - reflexivity.
  - vm_compute. reflexivity.
Defined.

Lemma after_first_suffix (c : ascii) (l : string) :
  occurs c l = true -> exists prefix, l = (prefix ++ String c (after_first c l))%string.
Proof.
  induction l as [|d l IH]; cbn [occurs after_first]; intros H; [discriminate|].
  destruct (Ascii.eqb d c) eqn:E.
  - apply Ascii.eqb_eq in E. subst d. now exists EmptyString.
  - destruct (IH H) as [p Hp]. exists (String d p). cbn [append]. now rewrite <- Hp.
Qed.

Lemma occurs_after_first (c d : ascii) (l : string) :
  occurs d l = false -> occurs d (after_first c l) = false.
Proof.
  induction l as [|e l IH]; cbn [occurs after_first]; intros H; [reflexivity|].
  apply orb_false_iff in H as [_ H]. destruct (Ascii.eqb e c); auto.
Qed.

(** X3.  The loader copies and never alters: every entry of the list is
    the tail of a non-empty line of the file, either the whole line or what
    follows a space of it, and holds no newline. *)
Theorem labels_are_line_tails {Net Img : Type} (w : World Net Img)
  (filename content : string) :
  file_contents w filename = Some content ->
  size content < size_t_modulus ->
  exists classNames,
    result_of (readClassNames w filename) = Ret classNames /\
    forall label, In label classNames ->
      occurs newline label = false /\
      exists line, In line (lines content) /\ line <> EmptyString /\
        (line = label \/
         exists prefix, line = (prefix ++ String space label)%string).
Proof.
  intros Hf Hsz. exists (labels_of_lines (lines content)).
  rewrite (readClassNames_opened w _ _ Hf Hsz). split; [reflexivity|].
  intros label Hin. unfold labels_of_lines in Hin.
  apply in_map_iff in Hin as (line & <- & Hin).
  apply filter_In in Hin as [Hin Hne].
  assert (Hnl : occurs newline line = false).
  { pose proof (lines_no_newline content) as Hall.
    rewrite Forall_forall in Hall. now apply Hall. }
  unfold label_of_line. destruct (occurs space line) eqn:Hsp.
  - split; [now apply occurs_after_first|].
    exists line. repeat split; [assumption| |right; now apply after_first_suffix].
    intros ->. discriminate.
  - split; [assumption|]. exists line. repeat split; [assumption| |now left].
    intros ->. discriminate.
Qed.

Lemma labels_are_line_tails_witness :
  exists classNames,
    result_of (readClassNames world_ok "synset_words.txt") = Ret classNames /\
    forall label, In label classNames ->
      occurs newline label = false /\
      exists line, In line (lines three_labels) /\ line <> EmptyString /\
        (line = label \/
         exists prefix, line = (prefix ++ String space label)%string).
Proof.
  apply (labels_are_line_tails world_ok "synset_words.txt" three_labels).
  - reflexivity.
  - vm_compute. reflexivity.
Defined.

(** * Further properties of whole runs *)

(** X4.  The help option does not stop the program: with it the run is the
    run without it, loading, inference and report included, preceded by the
    usage message. *)
Theorem help_only_prints_usage {Net Img : Type} (w : World Net Img)
  (argv : list string) :
  doDnn w argv
  = ((help_events w argv ++
      events_of (doDnn (set_bool_option "help" false w) argv))%list,
     result_of (doDnn (set_bool_option "help" false w) argv)) /\
  help_events (set_bool_option "help" false w) argv = [].
Proof.
  split; [|reflexivity].
  unfold doDnn, doDnn_with. rewrite !bind_unit_prefix.
  reflexivity.
Qed.

Section RunFacts.

Context {Net Img : Type}.
Variable w : World Net Img.

Lemma filter_help_events (p : event -> bool) (argv : list string) :
  p EvPrintMessage = false -> filter p (help_events w argv) = [].
Proof.
  intros H. unfold help_events. destruct (help_option w argv); cbn; now rewrite ?H.
Qed.

Lemma filter_load_events (p : event -> bool) (argv : list string) :
  (forall q, p (EvCerr q) = false) ->
  filter p (load_events w argv)
  = filter p [EvReadNet (proto_option w argv) (model_option w argv)].
Proof.
  intros H.
  destruct (load_events_cases w argv)
    as [(net & _ & _ & ->)|[(what & _ & _ & _ & ->)|(what & _ & _ & _ & ->)]];
    cbn [filter]; now rewrite ?H.
Qed.

Lemma filter_target_events (p : event -> bool) (argv : list string) :
  (forall t, p (EvSetPreferableTarget t) = false) ->
  filter p (target_events w argv) = [].
Proof.
  intros H. unfold target_events. destruct (opencl_option w argv); cbn; now rewrite ?H.
Qed.

Lemma filter_report_events (p : event -> bool) (prob : Mat) :
  (forall q, p (EvCerr q) = false) -> (forall q, p (EvCout q) = false) ->
  p EvClose = false -> (forall f b, p (EvOpen f b) = false) ->
  filter p (events_of (report w prob)) = [].
Proof.
  intros H1 H2 H3 H4.
  destruct (report_cases w prob)
    as [(_ & _ & ->)|[(_ & _ & _ & ->)|
       (_ & _ & content & classNames & _ & _ & [(label & _ & ->)|[_ ->]])]];
    cbn [events_of fst filter]; now rewrite ?H1, ?H2, ?H3, ?H4.
Qed.

(** What a run holds of the events of a kind [p], when [p] is none of the
    insertions into [std::cerr], the usage text, the image read and the
    two calls of a cycle: the model load; the target selection, if the
    load did not end the run; the construction of the tensor, if the run
    gets to inference; and what the report holds, if the run gets to it. *)
Lemma filter_main (p : event -> bool) (argv : list string) :
  (forall q, p (EvCerr q) = false) -> p EvPrintMessage = false ->
  (forall f, p (EvImread f) = false) ->
  (forall blob name, p (EvSetInput blob name) = false) ->
  (forall name out, p (EvForward name out) = false) ->
  filter p (fst (main w argv))
  = (filter p [EvReadNet (proto_option w argv) (model_option w argv)] ++
     (if load_fails w argv then [] else filter p (target_events w argv)) ++
     (if reaches_inference w argv
      then filter p [EvBlobFromImage (double_of_Z 1) (mk_Size 224 224)
                                     (Scalar3 104 117 123) false (input_blob w argv)]
      else []) ++
     (if reaches_report w argv
      then filter p (events_of (report w (last_prob w argv))) else []))%list.
Proof.
  intros Hcerr Hhelp Himread Hset Hfwd. rewrite main_events.
  unfold reaches_inference, reaches_report.
  destruct (doDnn_cases w argv)
    as [[Hl E]|[(Hl & Hi & what & pre & Ee & Ef & Hp & E)|
       [(Hl & Hi & Ee & Ef & E)|[(Hl & Hi & Ee & what & k & Ef & Hk & E)|
        (Hl & Hi & Ee & Ef & E)]]]];
    rewrite E, Hl; try rewrite Hi; try rewrite Ee; try rewrite Ef;
    cbn [events_of fst negb andb]; clear E; unfold setup_events;
    rewrite !filter_app, filter_help_events, filter_load_events by assumption;
    cbn [app].
  - now rewrite !app_nil_r.
  - destruct Hp as [->| ->]; cbn [filter]; rewrite ?Himread; reflexivity.
  - cbn [filter]. rewrite Himread, !Hcerr. reflexivity.
  - rewrite (filter_cycles_trace w p Hset Hfwd).
    cbn [filter app]. rewrite Himread, Hset, <- ?app_assoc.
    destruct (p (EvBlobFromImage _ _ _ _ _)); cbn [app];
      now rewrite ?app_nil_r.
  - rewrite (filter_cycles_trace w p Hset Hfwd).
    cbn [filter app]. rewrite Himread, <- ?app_assoc. reflexivity.
Qed.

End RunFacts.

(** X5.  A run makes at most eleven forward passes, each on the tensor
    built from the image: none when it ends before inference, eleven
    exactly when it gets to the report, and fewer only when a pass throws;
    the tensor is bound once per pass, and once more for the pass that
    throws. *)
Theorem forward_passes_bounded {Net Img : Type} (w : World Net Img)
  (argv : list string) :
  exists k j : nat,
    List.length (forward_outputs (fst (main w argv))) = k /\
    input_blobs (fst (main w argv)) = repeat (input_blob w argv) j /\
    (k <= j)%nat /\ (j <= S k)%nat /\ (j <= 11)%nat /\
    (k = 11%nat <-> reaches_report w argv = true) /\
    (reaches_inference w argv = false -> j = 0%nat) /\
    (final_output (fst (main w argv)) = None <-> reaches_report w argv = false).
Proof.
  rewrite main_events.
  destruct (doDnn_passes w argv) as (k & j & _ & H1 & H2 & H3 & H4 & H5 & H6 & _ & H7).
  exists k, j. repeat split; try assumption; try apply H6.
  - unfold final_output. intros Hn. apply nth_error_None in Hn.
    destruct (reaches_report w argv); [|reflexivity].
    destruct H6 as [_ H6]. specialize (H6 eq_refl). lia.
  - unfold final_output. intros Hr. apply nth_error_None.
    destruct (Nat.eq_dec k 11) as [->|Hne]; [|lia].
    destruct H6 as [H6 _]. rewrite (H6 eq_refl) in Hr. discriminate.
Qed.

(** X6.  Every run asks for the model exactly once, with the paths of the
    proto and model options in that order, and before any other call to the
    library; the load is never tried again. *)
Theorem model_read_once_first {Net Img : Type} (w : World Net Img)
  (argv : list string) :
  filter is_model_load (fst (main w argv))
  = [EvReadNet (proto_option w argv) (model_option w argv)] /\
  exists rest,
    fst (main w argv)
    = (help_events w argv ++
       EvReadNet (proto_option w argv) (model_option w argv) :: rest)%list.
Proof.
  split.
  - rewrite (filter_main w is_model_load) by reflexivity.
    rewrite (filter_target_events w is_model_load),
      (filter_report_events w is_model_load) by reflexivity.
    cbn [filter is_model_load app].
    now destruct (load_fails w argv), (reaches_inference w argv),
      (reaches_report w argv).
  - rewrite main_events.
    destruct (doDnn_prefix w argv) as (post & -> & _).
    destruct (load_events_head w argv) as (rest & -> & _).
    eexists. cbn [app]. reflexivity.
Qed.

(** X7.  Output discipline.  A run that exits with -1 has inserted nothing
    into [std::cout], the standard output holding at most the usage text of
    the help option, and has inserted something into [std::cerr]; whatever
    the program inserts into [std::cout] comes after the model was loaded,
    the image read, the eleven passes done and the label file opened and
    read; and a run that returns 0 after a load that did not throw has
    inserted nothing into [std::cerr]. *)
Theorem output_discipline {Net Img : Type} (w : World Net Img)
  (argv : list string) :
  (snd (main w argv) = Exited (-1) ->
   couts (fst (main w argv)) = [] /\
   filter is_stdout (fst (main w argv)) = help_events w argv /\
   cerrs (fst (main w argv)) <> []) /\
  (couts (fst (main w argv)) <> [] ->
   reaches_report w argv = true /\
   exists content, file_contents w "synset_words.txt" = Some content) /\
  (forall net,
      readNetFromCaffe w (proto_option w argv) (model_option w argv) = inl net ->
      snd (main w argv) = Exited 0 ->
      cerrs (fst (main w argv)) = []).
Proof.
  destruct (help_events_quiet w argv) as (Hh1 & Hh2 & _).
  destruct (target_events_quiet w argv) as (Ht1 & Ht2 & _).
  destruct (load_events_head w argv)
    as (rest & Hle & Hl1 & _ & _ & _ & Hl2 & _ & _ & _ & _ & Hl3).
  destruct (prefix_quiet w argv) as (Hp1 & _).
  destruct (setup_events_quiet w argv) as (Hs1 & _).
  assert (Hhs : filter is_stdout (help_events w argv) = help_events w argv)
    by (unfold help_events; now destruct (help_option w argv)).
  assert (Hts : filter is_stdout (target_events w argv) = [])
    by (unfold target_events; now destruct (opencl_option w argv)).
  assert (Hls : filter is_stdout (load_events w argv) = [])
    by (rewrite Hle; cbn [filter is_stdout]; exact Hl2).
  assert (Hlc : couts (load_events w argv) = [])
    by (rewrite Hle; exact Hl1).
  rewrite main_status, main_events, reaches_report_true.
  destruct (doDnn_cases w argv)
    as [[Hl E]|[(Hl & Hi & what & pre & Ee & Ef & Hp & E)|
       [(Hl & Hi & Ee & Ef & E)|[(Hl & Hi & Ee & what & k & Ef & Hk & E)|
        (Hl & Hi & Ee & Ef & E)]]]];
    rewrite E; cbn [events_of result_of fst snd]; clear E.
  - rewrite couts_app, cerrs_app, filter_app, Hh1, Hh2, Hhs, Hls, Hlc.
    cbn [app]. rewrite ?app_nil_r. split; [|split].
    + intros _. split; [reflexivity|]. split; [reflexivity|].
      rewrite Hle. cbn [cerrs flat_map app]. now apply Hl3.
    + intros HH. now contradiction HH.
    + intros net E. destruct (load_events_cases w argv)
        as [(net' & _ & Hl' & _)|[(wh & E' & _)|(wh & E' & _)]]; congruence.
  - split; [discriminate|]. split; [|discriminate].
    rewrite !app_assoc, <- (app_assoc (help_events w argv)), couts_app, Hp1.
    destruct Hp as [->| ->]; intros HH; now contradiction HH.
  - rewrite !app_assoc, <- (app_assoc (help_events w argv)).
    rewrite couts_app, cerrs_app, filter_app, Hp1.
    rewrite !filter_app, Hhs, Hls, Hts.
    cbn [couts cerrs flat_map filter is_stdout app].
    split; [|split].
    + intros _. split; [reflexivity|]. split; [now rewrite ?app_nil_r|].
      intros HH. apply app_eq_nil in HH as [_ HH]. discriminate.
    + intros HH. now contradiction HH.
    + discriminate.
  - split; [discriminate|]. split; [|discriminate].
    destruct (couts_cycles_trace w k (net_in_use w argv) (input_blob w argv))
      as [Hc1 _].
    rewrite !couts_app, Hs1, Hc1. intros HH. now contradiction HH.
  - destruct (couts_cycles_trace w 11 (net_in_use w argv) (input_blob w argv))
      as [Hc1 Hc2].
    assert (Hcs : filter is_stdout
                    (cycles_trace w 11 (net_in_use w argv) (input_blob w argv)) = [])
      by now apply filter_cycles_trace.
    assert (Hss : filter is_stdout (setup_events w argv) = help_events w argv).
    { unfold setup_events. rewrite !filter_app, Hhs, Hls, Hts.
      cbn [filter is_stdout app]. now rewrite app_nil_r. }
    rewrite !couts_app, !cerrs_app, !filter_app, Hs1, Hc1, Hc2, Hcs, Hss.
    cbn [app].
    destruct (report_cases w (last_prob w argv))
      as [(Hm & Hu & Hr)|[(Hm & Hu & Hf & Hr)|
         (Hm & Hu & content & classNames & Hf & Hn &
          [(label & Hat & Hr)|[Hat Hr]])]];
      rewrite Hr; cbn [events_of result_of fst snd couts cerrs flat_map app filter
                         is_stdout].
    + split; [|split].
      * intros _. split; [reflexivity|]. split; [now rewrite ?app_nil_r|].
        intros HH. apply app_eq_nil in HH as [_ HH]. discriminate.
      * intros HH. now contradiction HH.
      * discriminate.
    + split; [discriminate|]. split; [|discriminate].
      intros HH. now contradiction HH.
    + split; [discriminate|]. split.
      * intros _. split; [auto|]. now exists content.
      * intros net E _. rewrite app_nil_r. unfold setup_events.
        rewrite !cerrs_app, Hh2, Ht2.
        destruct (load_events_cases w argv)
          as [(net' & _ & _ & ->)|[(wh & E' & _)|(wh & E' & _)]];
          [reflexivity|congruence|congruence].
    + split; [discriminate|]. split; [|discriminate].
      intros _. split; [auto|]. now exists content.
Qed.

(** X8.  When the model loads and the image cannot be read, the run ends
    there: the read is followed by the message naming the image file and by
    exit(-1); no tensor was built and the label file was not opened. *)
Theorem unreadable_image {Net Img : Type} (w : World Net Img)
  (argv : list string) :
  load_fails w argv = false ->
  image_unreadable w argv = true ->
  snd (main w argv) = Exited (-1) /\
  exists pre,
    fst (main w argv)
    = (pre ++ [EvImread (image_option w argv);
               EvCerr (PStr "Can't read image from the file: ");
               EvCerr (PStr (image_option w argv)); EvCerr PEndl])%list /\
    filter is_blob pre = [] /\ filter is_open pre = [].
Proof.
  intros Hl Hi. split.
  { apply (main_status_characterised w argv). auto. }
  rewrite main_events.
  destruct (doDnn_cases w argv)
    as [[Hl' _]|[(_ & Hi' & _)|[(_ & _ & _ & _ & E)|[(_ & Hi' & _)|
       (_ & Hi' & _)]]]]; try congruence.
  rewrite E. cbn [events_of fst].
  exists (help_events w argv ++ load_events w argv ++ target_events w argv)%list.
  split; [now rewrite <- !app_assoc|].
  rewrite !filter_app.
  rewrite !(filter_help_events w), !(filter_load_events w), !(filter_target_events w)
    by reflexivity.
  split; reflexivity.
Qed.

Lemma unreadable_image_witness :
  snd (main world_no_image []) = Exited (-1) /\
  exists pre,
    fst (main world_no_image [])
    = (pre ++ [EvImread (image_option world_no_image []);
               EvCerr (PStr "Can't read image from the file: ");
               EvCerr (PStr (image_option world_no_image [])); EvCerr PEndl])%list /\
    filter is_blob pre = [] /\ filter is_open pre = [].
Proof.
  apply (unreadable_image world_no_image []); reflexivity.
Defined.

(** X9.  The compute target is set at most once, to OpenCL, and exactly
    when the opencl option is given and the model was loaded; it is set
    after the load and, unless the call throws and ends the run, before the
    image is read. *)
Theorem opencl_target {Net Img : Type} (w : World Net Img) (argv : list string) :
  filter is_target (fst (main w argv))
  = (if negb (load_fails w argv) && opencl_option w argv
     then [EvSetPreferableTarget DNN_TARGET_OPENCL] else []) /\
  (load_fails w argv = false ->
   exists post,
     fst (main w argv)
     = (help_events w argv ++ load_events w argv ++ target_events w argv ++
        post)%list /\
     filter is_target (help_events w argv ++ load_events w argv) = [] /\
     filter is_target post = [] /\
     (target_throws w argv = None ->
      exists post', post = EvImread (image_option w argv) :: post') /\
     (forall what, target_throws w argv = Some what ->
                   post = [] /\
                   snd (main w argv) = Terminated (cv_Exception what))).
Proof.
  assert (Hpre : filter is_target (help_events w argv ++ load_events w argv) = []).
  { rewrite filter_app, (filter_help_events w), (filter_load_events w) by reflexivity.
    reflexivity. }
  assert (Hall : filter is_target (fst (main w argv))
                 = (if negb (load_fails w argv) && opencl_option w argv
                    then [EvSetPreferableTarget DNN_TARGET_OPENCL] else [])).
  { rewrite (filter_main w is_target) by reflexivity.
    rewrite (filter_report_events w is_target) by reflexivity.
    cbn [filter is_target app]. unfold target_events.
    now destruct (load_fails w argv), (opencl_option w argv),
      (reaches_inference w argv), (reaches_report w argv). }
  split; [exact Hall|].
  intros Hl. rewrite Hl in Hall. cbn [negb andb] in Hall.
  assert (Ht : filter is_target (target_events w argv)
               = (if opencl_option w argv
                  then [EvSetPreferableTarget DNN_TARGET_OPENCL] else []))
    by (unfold target_events; now destruct (opencl_option w argv)).
  rewrite main_status. rewrite main_events in *.
  assert (Hcut : forall post,
             events_of (doDnn w argv)
             = (help_events w argv ++ load_events w argv ++ target_events w argv ++
                post)%list ->
             filter is_target post = []).
  { intros post E. rewrite E, app_assoc, filter_app, Hpre, filter_app, Ht in Hall.
    cbn [app] in Hall. destruct (opencl_option w argv); [|exact Hall].
    injection Hall as Hall. exact Hall. }
  destruct (doDnn_cases w argv)
    as [[Hl' _]|[(_ & Hi & what & pre & Ee & Ef & Hp & E)|
       [(_ & Hi & Ee & Ef & E)|[(_ & Hi & Ee & what & k & Ef & Hk & E)|
        (_ & Hi & Ee & Ef & E)]]]]; [congruence| | | |];
    rewrite E in *; cbn [events_of result_of fst snd] in *.
  - exists pre. split; [reflexivity|]. split; [exact Hpre|].
    split; [now apply Hcut|].
    unfold early_throw in Ee.
    destruct (target_throws w argv) as [wt|] eqn:Et.
    + injection Ee as ->. split; [discriminate|].
      intros what' Hw. injection Hw as <-.
      assert (Hpre' : pre = []).
      { destruct (classify_early_throw w (runNet w) _ _
                    ltac:(unfold early_throw; rewrite Et; reflexivity))
          as (_ & Hc).
        unfold doDnn in E. rewrite (doDnn_with_goes_on w _ _ Hl), Hc in E.
        cbn [events_of result_of fst snd] in E. injection E as E.
        apply app_inv_head in E. apply app_inv_head in E.
        apply app_inv_head in E. unfold early_events in E. rewrite Et in E.
        now symmetry. }
      now rewrite Hpre'.
    + split; [|discriminate]. intros _.
      destruct Hp as [->| ->]; [|now eexists].
      exfalso.
      destruct (classify_early_throw w (runNet w) _ _
                  ltac:(unfold early_throw; rewrite Et; exact Ee))
        as (_ & Hc).
      unfold doDnn in E. rewrite (doDnn_with_goes_on w _ _ Hl), Hc in E.
      cbn [events_of result_of fst snd] in E. injection E as E.
      apply app_inv_head in E. apply app_inv_head in E.
      apply app_inv_head in E. unfold early_events in E. rewrite Et in E.
      discriminate.
  - eexists. split; [reflexivity|]. split; [exact Hpre|].
    split; [reflexivity|].
    unfold early_throw in Ee. destruct (target_throws w argv); [discriminate|].
    split; [intros _; now eexists|discriminate].
  - unfold setup_events in *. rewrite <- !app_assoc in *. cbn [app] in *.
    eexists. split; [reflexivity|]. split; [exact Hpre|].
    split; [now apply Hcut|].
    unfold early_throw in Ee. destruct (target_throws w argv); [discriminate|].
    split; [intros _; now eexists|discriminate].
  - unfold setup_events in *. rewrite <- !app_assoc in *. cbn [app] in *.
    eexists. split; [reflexivity|]. split; [exact Hpre|].
    split; [now apply Hcut|].
    unfold early_throw in Ee. destruct (target_throws w argv); [discriminate|].
    split; [intros _; now eexists|discriminate].
Qed.

(** X10.  The only file the program opens itself is synset_words.txt,
    whatever the command line; it opens it at most once, and only when the
    run gets to the report: model loaded, image read, eleven passes done.
    It closes it exactly when the file opened and was read to its end: a
    file that opens and then fails to read is never closed. *)
Theorem label_file_opened_once {Net Img : Type} (w : World Net Img)
  (argv : list string) :
  filter is_open (fst (main w argv))
  = (if reaches_report w argv
     then [EvOpen "synset_words.txt" (negb (labels_missing w))] else []) /\
  filter is_close (fst (main w argv))
  = (if reaches_report w argv && negb (labels_missing w) &&
        negb (labels_unreadable w)
     then [EvClose] else []).
Proof.
  rewrite (filter_main w is_open), (filter_main w is_close) by reflexivity.
  rewrite !(filter_target_events w) by reflexivity.
  cbn [filter is_open is_close app].
  assert (Hl : (if load_fails w argv then [] else []) = @nil event)
    by now destruct (load_fails w argv).
  assert (Hi : (if reaches_inference w argv then [] else []) = @nil event)
    by now destruct (reaches_inference w argv).
  rewrite Hl, Hi. cbn [app].
  destruct (reaches_report w argv); [|split; reflexivity].
  destruct (report_cases w (last_prob w argv))
    as [(Hm & Hu & Hr)|[(Hm & Hu & Hf & Hr)|
       (Hm & Hu & content & classNames & Hf & Hn & [(label & Hat & Hr)|[Hat Hr]])]];
    rewrite Hr, Hm, Hu; split; reflexivity.
Qed.

(** X11.  The handle is tested for emptiness only in the exception
    handler: a network that [readNetFromCaffe] returns without throwing is
    used as it is, even when it is empty; the model-loading block reports
    nothing and does not end the run, which goes on to target selection and
    image reading with that network. *)
Theorem returned_net_is_not_checked {Net Img : Type} (w : World Net Img)
  (argv : list string) (net : Net) :
  readNetFromCaffe w (proto_option w argv) (model_option w argv) = inl net ->
  Net_empty w net = true ->
  load_fails w argv = false /\
  load_events w argv = [EvReadNet (proto_option w argv) (model_option w argv)] /\
  net_in_use w argv
  = (if opencl_option w argv then setPreferableTarget w net DNN_TARGET_OPENCL
     else net) /\
  doDnn w argv
  = ((help_events w argv ++
      EvReadNet (proto_option w argv) (model_option w argv) ::
      events_of (classify w (runNet w) (image_option w argv)
                          (opencl_option w argv) net))%list,
     result_of (classify w (runNet w) (image_option w argv)
                         (opencl_option w argv) net)).
Proof.
  intros E _.
  destruct (load_events_cases w argv)
    as [(net' & E' & Hl & Hle)|[(what & E' & _)|(what & E' & _)]];
    try congruence.
  split; [assumption|]. split; [assumption|].
  split; [unfold net_in_use; now rewrite E|].
  unfold doDnn. rewrite (doDnn_with_goes_on w _ _ Hl), Hle.
  unfold loaded_net. rewrite E. reflexivity.
Qed.

Lemma returned_net_is_not_checked_witness :
  load_fails world_empty_net [] = false /\
  load_events world_empty_net []
  = [EvReadNet (proto_option world_empty_net []) (model_option world_empty_net [])].
Proof.
  destruct (returned_net_is_not_checked world_empty_net [] 0%nat eq_refl eq_refl)
    as (H1 & H2 & _).
  split; [exact H1|exact H2].
Defined.

(** X13.  Nothing catches an exception that a library call throws after
    the model-loading block (target selection, image reading, tensor
    construction, set-input, forward): the run is terminated by it, before
    the eleventh pass is done, the program having inserted nothing into
    [std::cout] and the label file not having been opened. *)
Theorem library_exception_ends_run {Net Img : Type} (w : World Net Img)
  (argv : list string) (what : string) :
  load_fails w argv = false ->
  first_throw w argv = Some what ->
  snd (main w argv) = Terminated (cv_Exception what) /\
  (List.length (forward_outputs (fst (main w argv))) < 11)%nat /\
  final_output (fst (main w argv)) = None /\
  couts (fst (main w argv)) = [] /\
  filter is_open (fst (main w argv)) = [] /\
  (early_throw w argv = Some what ->
   forward_outputs (fst (main w argv)) = [] /\
   input_blobs (fst (main w argv)) = []).
Proof.
  intros Hl Hf.
  assert (Hr : reaches_report w argv = false).
  { destruct (reaches_report w argv) eqn:Hr; [|reflexivity].
    apply reaches_report_true in Hr. destruct Hr as (_ & _ & Hr). congruence. }
  split; [apply (main_status_characterised w argv); auto|].
  rewrite main_events.
  destruct (doDnn_passes w argv)
    as (k & j & _ & H1 & H2 & H3 & H4 & H5 & H6 & _ & H7).
  assert (Hk : (k < 11)%nat).
  { destruct (Nat.eq_dec k 11) as [->|Hne]; [|lia].
    destruct H6 as [H6 _]. rewrite (H6 eq_refl) in Hr. discriminate. }
  split; [lia|]. split; [unfold final_output; apply nth_error_None; lia|].
  split; [|split].
  - destruct (prefix_quiet w argv) as (Hp1 & _).
    destruct (setup_events_quiet w argv) as (Hs1 & _).
    destruct (doDnn_cases w argv)
      as [[Hl' _]|[(_ & Hi & wh & pre & Ee & Ef & Hp & E)|
         [(_ & Hi & Ee & Ef & E)|[(_ & Hi & Ee & wh & k' & Ef & Hk' & E)|
          (_ & Hi & Ee & Ef & E)]]]]; try congruence;
      rewrite E; cbn [events_of fst].
    + rewrite !app_assoc, <- (app_assoc (help_events w argv)), couts_app, Hp1.
      now destruct Hp as [->| ->].
    + destruct (couts_cycles_trace w k' (net_in_use w argv) (input_blob w argv))
        as [Hc1 _].
      now rewrite !couts_app, Hs1, Hc1.
  - rewrite <- main_events.
    rewrite (filter_main w is_open) by reflexivity.
    rewrite (filter_target_events w is_open) by reflexivity.
    rewrite Hl, Hr. cbn [filter is_open app].
    now destruct (reaches_inference w argv).
  - intros Ee.
    assert (Hin : reaches_inference w argv = false).
    { unfold reaches_inference. rewrite Ee. now rewrite andb_false_r. }
    specialize (H7 Hin). subst j.
    assert (k = 0)%nat by lia. subst k.
    split; [|exact H2].
    now destruct (forward_outputs (events_of (doDnn w argv))).
Qed.

Lemma library_exception_ends_run_witness :
  snd (main world_pass_throws [])
  = Terminated (cv_Exception "forward: layer failed") /\
  (List.length (forward_outputs (fst (main world_pass_throws []))) < 11)%nat.
Proof.
  destruct (library_exception_ends_run world_pass_throws []
              "forward: layer failed" eq_refl eq_refl) as (H1 & H2 & _).
  split; [exact H1|exact H2].
Defined.

(** With --help and --opencl the usage message comes first and the target
    is set between the load and the reading of the image. *)
Example help_opencl_run :
  firstn 4 (fst (main world_help_opencl []))
  = [EvPrintMessage;
     EvReadNet "bvlc_googlenet.prototxt" "bvlc_googlenet.caffemodel";
     EvSetPreferableTarget DNN_TARGET_OPENCL;
     EvImread "space_shuttle.jpg"] /\
  snd (main world_help_opencl []) = Exited 0.
Proof. split; reflexivity. Qed.
